(** * drive-tester-cli: the random-read sampler and the interactive shell

    A shallow embedding of [drive-tester-cli.py].  The script talks to the
    outside world only through pywin32 calls, [random.randint],
    [time.time], [input] and [print]; here those calls are primitives of a
    small monad that threads a [world] (the platform's state), can raise a
    Python exception, and logs every call and every printed line in one
    ordered trace.  What the platform answers is an oracle, [platform]:
    theorems quantify over all of them.

    Python floats are idealised as exact rationals ([Q]): rounding of the
    double-precision arithmetic and of the [:.1f] / [:.2f] renderings is
    not modelled. *)

From Stdlib Require Import ZArith QArith String Ascii Bool Lia List.
From Stdlib Require Import Strings.Byte.
Import ListNotations.

Local Open Scope Z_scope.

(** ** Exceptions *)

(** The exception classes the script can meet.  All derive from
    [Exception]; [win32file.error] is pywin32's API failure. *)
Inductive exn : Type :=
| Win32Error (msg : string)
| StructError
| ValueError
| ZeroDivisionError
| IndexError
| EOFError.

(** [except win32file.error] *)
Definition is_win32_error (e : exn) : bool :=
  match e with Win32Error _ => true | _ => false end.

(** [except Exception] *)
Definition is_Exception (e : exn) : bool := true.

Inductive res (A : Type) : Type :=
| Val (a : A)
| Exc (e : exn).
Arguments Val {A} a.
Arguments Exc {A} e.

(** ** Observable actions *)

Definition handle := nat.

Inductive stream : Type := Stdout | Stderr.

(** One constructor per [print] / [input] call site; the fields are the
    values interpolated into the f-string, in order. *)
Inductive text : Type :=
| TSampleOk (i num_reads block_index : Z) (percent : Q) (read_len : Z) (elapsed_ms : Q)
| TSampleError (i num_reads block_index : Z) (percent : Q) (e : exn)
| TSuccessRate (successes num_reads : Z) (rate : Q)
| TAverageLatency (avg_latency : Q)
| TAverageThroughput (throughput_mb : Q)
| TErrorOpening (e : exn)
| TTooSmall
| TErrorSetup (e : exn)
| TDriveEntry (idx : Z) (DeviceID Model : string)
| TTotalBlocks (total_blocks : Z)
| TInvalidNumber
| TEnterBetween (total_blocks : Z)
| TInvalidSelection
| TInvalidInputOrError
| TSelectDrive (n : Z)
| TEnterNumber (default_tests total_blocks : Z).

(** A platform call carries what was asked and what came back; the device
    calls also carry how long the call took. *)
Inductive action : Type :=
| ACreateFile (device_id : string) (granted : option handle)
| ADeviceIoControl (h : handle) (ok : bool)
| ASetFilePointer (h : handle) (offset : Z) (took : Q) (ok : bool)
| AReadFile (h : handle) (position size : Z) (took : Q) (returned : option Z)
| ACloseHandle (h : handle)
| ATime (t : Q)
| ARandint (a b x : Z)
| AInput (prompt : text) (line : option string)
| APrint (s : stream) (t : text).

(** ** The platform *)

(** What the outside world answers to the k-th call of each kind.  A
    pywin32 call either succeeds or raises [win32file.error] with a
    message.
    - [create_file_answer]: [None] grants a handle, [Some msg] raises;
    - [ioctl_answer]: the output buffer of the length query, or the error;
    - [seek_answer], [read_answer]: how long the call takes and what it
      gives (the data read, for a read);
    - [entropy]: the random source behind [random.randint]. *)
Record platform : Type := {
  create_file_answer : nat -> option string;
  ioctl_answer : nat -> list byte + string;
  seek_answer : nat -> Q * option string;
  read_answer : nat -> Q * (list byte + string);
  entropy : nat -> Z
}.

(** The platform's state: how many calls of each kind were made, the
    wall clock, the cursor of each handle, the handles that are open, the
    next handle to hand out, and the lines waiting on standard input. *)
Record world : Type := {
  opens : nat;
  ioctls : nat;
  seeks : nat;
  reads : nat;
  draws : nat;
  clock : Q;
  cursor : handle -> Z;
  live : list handle;
  next_handle : handle;
  stdin : list string
}.

(** ** The monad: state, exceptions, trace *)

Definition M (A : Type) : Type := world -> res A * world * list action.

Definition ret {A} (a : A) : M A := fun w => (Val a, w, []).

Definition raise {A} (e : exn) : M A := fun w => (Exc e, w, []).

Definition bind {A B} (m : M A) (k : A -> M B) : M B := fun w =>
  match m w with
  | (Val a, w1, t1) =>
      match k a w1 with (r, w2, t2) => (r, w2, t1 ++ t2) end
  | (Exc e, w1, t1) => (Exc e, w1, t1)
  end.

(** [try: m  except <catches> as e: handler e] *)
Definition try_except {A} (m : M A) (catches : exn -> bool) (handler : exn -> M A) : M A :=
  fun w =>
  match m w with
  | (Val a, w1, t1) => (Val a, w1, t1)
  | (Exc e, w1, t1) =>
      if catches e
      then match handler e w1 with (r, w2, t2) => (r, w2, t1 ++ t2) end
      else (Exc e, w1, t1)
  end.

(** [try: m  finally: cleanup] *)
Definition try_finally {A} (m : M A) (cleanup : M unit) : M A := fun w =>
  match m w with
  | (r, w1, t1) =>
      match cleanup w1 with
      | (Val _, w2, t2) => (r, w2, t1 ++ t2)
      | (Exc e, w2, t2) => (Exc e, w2, t1 ++ t2)
      end
  end.

Declare Scope py_scope.
Delimit Scope py_scope with py.
Notation "x <- m ;; k" := (bind m (fun x => k))
  (at level 100, m at next level, right associativity) : py_scope.
Notation "m ;; k" := (bind m (fun _ => k))
  (at level 100, right associativity) : py_scope.
Local Open Scope py_scope.

Definition lift {A} (r : res A) : M A := fun w => (r, w, []).

(** ** Python arithmetic that can raise *)

(** [a // b] on ints: floor division, as [Z.div], but zero raises. *)
Definition py_floordiv (a b : Z) : res Z :=
  if b =? 0 then Exc ZeroDivisionError else Val (a / b).

(** [a / b] as a float. *)
Definition py_truediv (a b : Q) : res Q :=
  if Qeq_bool b 0 then Exc ZeroDivisionError else Val (a / b)%Q.

(** [struct.unpack('Q', buf)]: eight bytes, native (little-endian) order,
    unsigned. *)
Fixpoint le_bytes (buf : list byte) : Z :=
  match buf with
  | [] => 0
  | b :: rest => Z.of_N (Byte.to_N b) + 256 * le_bytes rest
  end.

Definition struct_calcsize_Q : nat := 8.

Definition struct_unpack_Q (buf : list byte) : res Z :=
  if Nat.eqb (length buf) struct_calcsize_Q then Val (le_bytes buf) else Exc StructError.

(** ** Primitives *)

Section Primitives.

Variable pf : platform.

Definition set_cursor (c : handle -> Z) (h : handle) (pos : Z) : handle -> Z :=
  fun h' => if Nat.eqb h' h then pos else c h'.

(** [win32file.CreateFile(device_id, GENERIC_READ, share read|write, ...)] *)
Definition CreateFile (device_id : string) : M handle := fun w =>
  match create_file_answer pf (opens w) with
  | Some msg =>
      (Exc (Win32Error msg),
       {| opens := S (opens w); ioctls := ioctls w; seeks := seeks w; reads := reads w;
          draws := draws w; clock := clock w; cursor := cursor w; live := live w;
          next_handle := next_handle w; stdin := stdin w |},
       [ACreateFile device_id None])
  | None =>
      let h := next_handle w in
      (Val h,
       {| opens := S (opens w); ioctls := ioctls w; seeks := seeks w; reads := reads w;
          draws := draws w; clock := clock w; cursor := set_cursor (cursor w) h 0;
          live := h :: live w; next_handle := S h; stdin := stdin w |},
       [ACreateFile device_id (Some h)])
  end.

(** [win32file.CloseHandle(handle)] *)
Definition CloseHandle (h : handle) : M unit := fun w =>
  (Val tt,
   {| opens := opens w; ioctls := ioctls w; seeks := seeks w; reads := reads w;
      draws := draws w; clock := clock w; cursor := cursor w;
      live := remove Nat.eq_dec h (live w);
      next_handle := next_handle w; stdin := stdin w |},
   [ACloseHandle h]).

(** [win32file.DeviceIoControl(handle, IOCTL_DISK_GET_LENGTH_INFO, None, 8)] *)
Definition DeviceIoControl (h : handle) : M (list byte) := fun w =>
  let w1 :=
    {| opens := opens w; ioctls := S (ioctls w); seeks := seeks w; reads := reads w;
       draws := draws w; clock := clock w; cursor := cursor w; live := live w;
       next_handle := next_handle w; stdin := stdin w |} in
  match ioctl_answer pf (ioctls w) with
  | inl buf => (Val buf, w1, [ADeviceIoControl h true])
  | inr msg => (Exc (Win32Error msg), w1, [ADeviceIoControl h false])
  end.

(** [win32file.SetFilePointer(handle, offset, FILE_BEGIN)] *)
Definition SetFilePointer (h : handle) (offset : Z) : M unit := fun w =>
  let '(took, answer) := seek_answer pf (seeks w) in
  match answer with
  | None =>
      (Val tt,
       {| opens := opens w; ioctls := ioctls w; seeks := S (seeks w); reads := reads w;
          draws := draws w; clock := (clock w + took)%Q;
          cursor := set_cursor (cursor w) h offset; live := live w;
          next_handle := next_handle w; stdin := stdin w |},
       [ASetFilePointer h offset took true])
  | Some msg =>
      (Exc (Win32Error msg),
       {| opens := opens w; ioctls := ioctls w; seeks := S (seeks w); reads := reads w;
          draws := draws w; clock := (clock w + took)%Q; cursor := cursor w; live := live w;
          next_handle := next_handle w; stdin := stdin w |},
       [ASetFilePointer h offset took false])
  end.

(** [win32file.ReadFile(handle, size)]: reads at the handle's cursor and
    returns the data (the status word is dropped by the callers). *)
Definition ReadFile (h : handle) (size : Z) : M (list byte) := fun w =>
  let '(took, answer) := read_answer pf (reads w) in
  let pos := cursor w h in
  match answer with
  | inl data =>
      let n := Z.of_nat (length data) in
      (Val data,
       {| opens := opens w; ioctls := ioctls w; seeks := seeks w; reads := S (reads w);
          draws := draws w; clock := (clock w + took)%Q;
          cursor := set_cursor (cursor w) h (pos + n); live := live w;
          next_handle := next_handle w; stdin := stdin w |},
       [AReadFile h pos size took (Some n)])
  | inr msg =>
      (Exc (Win32Error msg),
       {| opens := opens w; ioctls := ioctls w; seeks := seeks w; reads := S (reads w);
          draws := draws w; clock := (clock w + took)%Q; cursor := cursor w; live := live w;
          next_handle := next_handle w; stdin := stdin w |},
       [AReadFile h pos size took None])
  end.

(** [time.time()] *)
Definition time_time : M Q := fun w => (Val (clock w), w, [ATime (clock w)]).

(** [random.randint(a, b)]: an integer N with a <= N <= b, here taken
    from the platform's entropy; an empty range raises [ValueError]. *)
Definition randint (a b : Z) : M Z := fun w =>
  if b <? a then (Exc ValueError, w, [])
  else
    let x := a + entropy pf (draws w) mod (b - a + 1) in
    (Val x,
     {| opens := opens w; ioctls := ioctls w; seeks := seeks w; reads := reads w;
        draws := S (draws w); clock := clock w; cursor := cursor w; live := live w;
        next_handle := next_handle w; stdin := stdin w |},
     [ARandint a b x]).

(** [print(..., file=s)] *)
Definition print (s : stream) (t : text) : M unit := fun w => (Val tt, w, [APrint s t]).

(** [input(prompt)]: the next line of standard input, [EOFError] when
    there is none. *)
Definition input (prompt : text) : M string := fun w =>
  match stdin w with
  | [] => (Exc EOFError, w, [AInput prompt None])
  | line :: rest =>
      (Val line,
       {| opens := opens w; ioctls := ioctls w; seeks := seeks w; reads := reads w;
          draws := draws w; clock := clock w; cursor := cursor w; live := live w;
          next_handle := next_handle w; stdin := rest |},
       [AInput prompt (Some line)])
  end.

(** ** quick_read_test *)

(** The four accumulators of the sampling loop. *)
Record totals : Type := {
  total_bytes : Z;
  total_time : Q;
  successes : Z;
  failures : Z
}.

Definition percent_of (offset drive_size : Z) : res Q :=
  match py_truediv (inject_Z offset) (inject_Z drive_size) with
  | Val q => Val (q * 100)%Q
  | Exc e => Exc e
  end.

(** The body of [for i in range(num_reads)] (lines 94-109). *)
Definition read_one_block (handle : handle) (block_size drive_size max_blocks num_reads : Z)
    (i : Z) (acc : totals) : M totals :=
  block_index <- randint 0 (max_blocks - 1) ;;
  let offset := block_index * block_size in
  percent <- lift (percent_of offset drive_size) ;;
  try_except
    (SetFilePointer handle offset ;;
     start <- time_time ;;
     data <- ReadFile handle block_size ;;
     stop <- time_time ;;
     let elapsed := (stop - start)%Q in
     let read_len := Z.of_nat (length data) in
     print Stdout (TSampleOk (i + 1) num_reads block_index percent read_len (elapsed * 1000)%Q) ;;
     ret {| total_bytes := total_bytes acc + read_len;
            total_time := (total_time acc + elapsed)%Q;
            successes := successes acc + 1;
            failures := failures acc |})
    is_win32_error
    (fun e =>
     print Stdout (TSampleError (i + 1) num_reads block_index percent e) ;;
     ret {| total_bytes := total_bytes acc;
            total_time := total_time acc;
            successes := successes acc;
            failures := failures acc + 1 |}).

(** [for i in range(num_reads)], [remaining] iterations from index [i]. *)
Fixpoint sample_loop (handle : handle) (block_size drive_size max_blocks num_reads : Z)
    (remaining : nat) (i : Z) (acc : totals) : M totals :=
  match remaining with
  | O => ret acc
  | S remaining' =>
      acc' <- read_one_block handle block_size drive_size max_blocks num_reads i acc ;;
      sample_loop handle block_size drive_size max_blocks num_reads remaining' (i + 1) acc'
  end.

(** Lines 111-116: the summary. *)
Definition report (num_reads : Z) (t : totals) : M unit :=
  rate <- lift (py_truediv (inject_Z (successes t)) (inject_Z num_reads)) ;;
  print Stdout (TSuccessRate (successes t) num_reads (rate * 100)%Q) ;;
  if 0 <? successes t then
    per_read <- lift (py_truediv (total_time t) (inject_Z (successes t))) ;;
    let avg_latency := (per_read * 1000)%Q in
    throughput_mb <-
      lift (py_truediv (inject_Z (total_bytes t) / inject_Z (1024 ^ 2))%Q (total_time t)) ;;
    print Stdout (TAverageLatency avg_latency) ;;
    print Stdout (TAverageThroughput throughput_mb)
  else ret tt.

(** Which way the function was left.  Python returns [None] on each of
    them; the tag (and, for a finished run, the accumulators) is kept so
    that the paths can be told apart. *)
Inductive exit_path : Type :=
| ExitOpenError
| ExitTooSmall
| ExitSetupError
| ExitCompleted (t : totals).

Definition zero_totals : totals :=
  {| total_bytes := 0; total_time := 0%Q; successes := 0; failures := 0 |}.

(** Lines 75-119: the [try] block and its [except win32file.error]. *)
Definition read_test_body (handle : handle) (num_reads block_size : Z) : M exit_path :=
  try_except
    (length_info <- DeviceIoControl handle ;;
     drive_size <- lift (struct_unpack_Q length_info) ;;
     max_blocks <- lift (py_floordiv drive_size block_size) ;;
     if max_blocks <? 1 then
       print Stderr TTooSmall ;;
       ret ExitTooSmall
     else
       t <- sample_loop handle block_size drive_size max_blocks num_reads
              (Z.to_nat num_reads) 0 zero_totals ;;
       report num_reads t ;;
       ret (ExitCompleted t))
    is_win32_error
    (fun e =>
     print Stderr (TErrorSetup e) ;;
     ret ExitSetupError).

Definition quick_read_test (device_id : string) (num_reads block_size : Z) : M exit_path :=
  opened <- try_except
              (handle <- CreateFile device_id ;; ret (Some handle))
              is_Exception
              (fun e => print Stderr (TErrorOpening e) ;; ret None) ;;
  match opened with
  | None => ret ExitOpenError
  | Some handle =>
      try_finally (read_test_body handle num_reads block_size) (CloseHandle handle)
  end.

End Primitives.

(** ** The shape of a run

    Big-step descriptions of what the sampler does, read off the trace:
    one [sample_block] per loop iteration, [sample_run] for the whole
    loop, [run_of] for [quick_read_test].  The lemmas below show that the
    code always produces a run of this shape; the theorems about traces
    are then proved on the shapes. *)

Section Shapes.

Variable pf : platform.
Variable h : handle.
Variables block_size drive_size max_blocks num_reads : Z.

Definition percent_value (offset : Z) : Q :=
  (inject_Z offset / inject_Z drive_size * 100)%Q.

Definition record_failure (acc : totals) : totals :=
  {| total_bytes := total_bytes acc;
     total_time := total_time acc;
     successes := successes acc;
     failures := failures acc + 1 |}.

Definition record_success (acc : totals) (read_len : Z) (elapsed : Q) : totals :=
  {| total_bytes := total_bytes acc + read_len;
     total_time := (total_time acc + elapsed)%Q;
     successes := successes acc + 1;
     failures := failures acc |}.

(** One iteration at index [i], taking the accumulators from [acc] to
    the third argument and emitting the given actions. *)
Inductive sample_block (i : Z) (acc : totals) : totals -> list action -> Prop :=
| block_seek_failed : forall x sd msg,
    0 <= x < max_blocks ->
    sample_block i acc (record_failure acc)
      [ARandint 0 (max_blocks - 1) x;
       ASetFilePointer h (x * block_size) sd false;
       APrint Stdout
         (TSampleError (i + 1) num_reads x (percent_value (x * block_size)) (Win32Error msg))]
| block_read_failed : forall x sd t0 rd msg,
    0 <= x < max_blocks ->
    sample_block i acc (record_failure acc)
      [ARandint 0 (max_blocks - 1) x;
       ASetFilePointer h (x * block_size) sd true;
       ATime t0;
       AReadFile h (x * block_size) block_size rd None;
       APrint Stdout
         (TSampleError (i + 1) num_reads x (percent_value (x * block_size)) (Win32Error msg))]
| block_read_ok : forall x sd t0 rd t1 n,
    0 <= x < max_blocks ->
    0 <= n ->
    (t1 - t0 == rd)%Q ->
    sample_block i acc (record_success acc n (t1 - t0))
      [ARandint 0 (max_blocks - 1) x;
       ASetFilePointer h (x * block_size) sd true;
       ATime t0;
       AReadFile h (x * block_size) block_size rd (Some n);
       ATime t1;
       APrint Stdout
         (TSampleOk (i + 1) num_reads x (percent_value (x * block_size)) n
            ((t1 - t0) * 1000)%Q)].

(** [k] consecutive iterations starting at index [i]. *)
Inductive sample_run : nat -> Z -> totals -> totals -> list (list action) -> Prop :=
| run_nil : forall i acc, sample_run O i acc acc []
| run_cons : forall k i acc acc1 acc2 blk blks,
    sample_block i acc acc1 blk ->
    sample_run k (i + 1) acc1 acc2 blks ->
    sample_run (S k) i acc acc2 (blk :: blks).

End Shapes.

Section Runs.

Variable pf : platform.

(** Every way [quick_read_test] can go: its result, the handles left
    open, and its trace. *)
Inductive run_of (device_id : string) (num_reads block_size : Z) (w : world) :
    res exit_path -> list handle -> list action -> Prop :=
| run_open_error : forall msg,
    create_file_answer pf (opens w) = Some msg ->
    run_of device_id num_reads block_size w (Val ExitOpenError) (live w)
      [ACreateFile device_id None; APrint Stderr (TErrorOpening (Win32Error msg))]
| run_query_error : forall msg,
    create_file_answer pf (opens w) = None ->
    ioctl_answer pf (ioctls w) = inr msg ->
    run_of device_id num_reads block_size w (Val ExitSetupError)
      (remove Nat.eq_dec (next_handle w) (live w))
      [ACreateFile device_id (Some (next_handle w));
       ADeviceIoControl (next_handle w) false;
       APrint Stderr (TErrorSetup (Win32Error msg));
       ACloseHandle (next_handle w)]
| run_setup_raised : forall buf e,
    create_file_answer pf (opens w) = None ->
    ioctl_answer pf (ioctls w) = inl buf ->
    (length buf <> 8%nat /\ e = StructError \/
     length buf = 8%nat /\ block_size = 0 /\ e = ZeroDivisionError) ->
    run_of device_id num_reads block_size w (Exc e)
      (remove Nat.eq_dec (next_handle w) (live w))
      [ACreateFile device_id (Some (next_handle w));
       ADeviceIoControl (next_handle w) true;
       ACloseHandle (next_handle w)]
| run_too_small : forall buf,
    create_file_answer pf (opens w) = None ->
    ioctl_answer pf (ioctls w) = inl buf ->
    length buf = 8%nat ->
    block_size <> 0 ->
    le_bytes buf / block_size < 1 ->
    run_of device_id num_reads block_size w (Val ExitTooSmall)
      (remove Nat.eq_dec (next_handle w) (live w))
      [ACreateFile device_id (Some (next_handle w));
       ADeviceIoControl (next_handle w) true;
       APrint Stderr TTooSmall;
       ACloseHandle (next_handle w)]
| run_sampled : forall buf t blks r w1 rep,
    create_file_answer pf (opens w) = None ->
    ioctl_answer pf (ioctls w) = inl buf ->
    length buf = 8%nat ->
    0 < block_size ->
    1 <= le_bytes buf / block_size ->
    sample_run (next_handle w) block_size (le_bytes buf) (le_bytes buf / block_size)
      num_reads (Z.to_nat num_reads) 0 zero_totals t blks ->
    report num_reads t w1 = (r, w1, rep) ->
    run_of device_id num_reads block_size w
      (match r with Val _ => Val (ExitCompleted t) | Exc e => Exc e end)
      (remove Nat.eq_dec (next_handle w) (live w))
      ([ACreateFile device_id (Some (next_handle w));
        ADeviceIoControl (next_handle w) true]
       ++ concat blks ++ rep ++ [ACloseHandle (next_handle w)]).

End Runs.

(** ** Parsing what the user types *)

(** ASCII characters for which [str.isspace] holds. *)
Definition is_space (c : ascii) : bool :=
  let n := nat_of_ascii c in
  ((9 <=? n) && (n <=? 13) || (28 <=? n) && (n <=? 32))%nat.

Fixpoint lstrip (s : string) : string :=
  match s with
  | EmptyString => EmptyString
  | String c rest => if is_space c then lstrip rest else s
  end.

Fixpoint rstrip (s : string) : string :=
  match s with
  | EmptyString => EmptyString
  | String c rest =>
      match rstrip rest with
      | EmptyString => if is_space c then EmptyString else String c EmptyString
      | kept => String c kept
      end
  end.

(** [s.strip()] *)
Definition strip (s : string) : string := rstrip (lstrip s).

Definition is_empty (s : string) : bool :=
  match s with EmptyString => true | _ => false end.

Definition digit_of (c : ascii) : option Z :=
  let n := nat_of_ascii c in
  if ((48 <=? n) && (n <=? 57))%nat then Some (Z.of_nat n - 48) else None.

(** Decimal digits, single underscores allowed between two digits. *)
Fixpoint int_digits (s : string) (acc : Z) (after_digit : bool) : option Z :=
  match s with
  | EmptyString => if after_digit then Some acc else None
  | String c rest =>
      match digit_of c with
      | Some d => int_digits rest (10 * acc + d) true
      | None =>
          if after_digit && Ascii.eqb c "_" then int_digits rest acc false else None
      end
  end.

(** [int(s)] on an ASCII string: surrounding whitespace, an optional
    sign, decimal digits.  [None] is [ValueError]. *)
Definition py_int (s : string) : option Z :=
  match strip s with
  | String "-" rest => option_map Z.opp (int_digits rest 0 false)
  | String "+" rest => int_digits rest 0 false
  | body => int_digits body 0 false
  end.

(** ** The read-test branch of interactive_menu *)

Record drive : Type := {
  DeviceID : string;
  Model : string;
  SizeGB : Q;
  InterfaceType : string
}.

Definition default_tests : Z := 25.

(** One pass through the body of the inner [while True] (lines 177-189)
    once [count_input] has been read: [Some n] is [break] with
    [num_tests = n], [None] is [continue]; with it, what was printed. *)
Definition read_count (total_blocks : Z) (count_input : string) : option Z * list action :=
  let range_check (num_tests : Z) :=
    if (num_tests <? 1) || (total_blocks <? num_tests)
    then (None, [APrint Stdout (TEnterBetween total_blocks)])
    else (Some num_tests, []) in
  if is_empty (strip count_input) then range_check default_tests
  else
    match py_int count_input with
    | None => (None, [APrint Stdout TInvalidNumber])
    | Some num_tests => range_check num_tests
    end.

(** The inner [while True] over the lines still waiting on standard
    input: it returns the accepted count, or [EOFError] from [input]
    when the lines run out, with the lines left and the trace. *)
Fixpoint prompt_loop (total_blocks : Z) (lines : list string) :
    res Z * list string * list action :=
  match lines with
  | [] => (Exc EOFError, [], [AInput (TEnterNumber default_tests total_blocks) None])
  | count_input :: rest =>
      let asked := AInput (TEnterNumber default_tests total_blocks) (Some count_input) in
      match read_count total_blocks count_input with
      | (Some num_tests, printed) => (Val num_tests, rest, asked :: printed)
      | (None, printed) =>
          let '(r, rest', tr) := prompt_loop total_blocks rest in
          (r, rest', asked :: printed ++ tr)
      end
  end.

Definition prompt_num_tests (total_blocks : Z) : M Z := fun w =>
  let '(r, rest, tr) := prompt_loop total_blocks (stdin w) in
  (r,
   {| opens := opens w; ioctls := ioctls w; seeks := seeks w; reads := reads w;
      draws := draws w; clock := clock w; cursor := cursor w; live := live w;
      next_handle := next_handle w; stdin := rest |},
   tr).

Section Menu.

Variable pf : platform.

(** Lines 145-146: [for idx, d in enumerate(drives): print(...)]. *)
Fixpoint print_drive_choices (drives : list drive) (idx : Z) : M unit :=
  match drives with
  | [] => ret tt
  | d :: rest =>
      print Stdout (TDriveEntry (idx + 1) (DeviceID d) (Model d)) ;;
      print_drive_choices rest (idx + 1)
  end.

(** [drives[sel_idx]] for a non-negative index. *)
Definition drives_at (drives : list drive) (sel_idx : Z) : res drive :=
  match nth_error drives (Z.to_nat sel_idx) with
  | Some d => Val d
  | None => Exc IndexError
  end.

(** Lines 174-191: ask for the count, then run the sampler with it. *)
Definition ask_and_test (dev : string) (total_blocks : Z) : M unit :=
  num_tests <- prompt_num_tests total_blocks ;;
  quick_read_test pf dev num_tests 4096 ;;
  ret tt.

(** Lines 151-191: the preliminary length query on the chosen drive. *)
Definition query_and_test (dev : string) : M unit :=
  handle <- CreateFile pf dev ;;
  length_info <- DeviceIoControl pf handle ;;
  CloseHandle handle ;;
  drive_size <- lift (struct_unpack_Q length_info) ;;
  let block_size := 4096 in
  total_blocks <- lift (py_floordiv drive_size block_size) ;;
  print Stdout (TTotalBlocks total_blocks) ;;
  ask_and_test dev total_blocks.

(** Lines 145-195: the branch for [choice == '2']. *)
Definition read_test_branch (drives : list drive) : M unit :=
  let len_drives := Z.of_nat (length drives) in
  print_drive_choices drives 0 ;;
  sel <- input (TSelectDrive len_drives) ;;
  try_except
    (match py_int sel with
     | None => raise ValueError
     | Some n =>
         let sel_idx := n - 1 in
         if (0 <=? sel_idx) && (sel_idx <? len_drives) then
           d <- lift (drives_at drives sel_idx) ;;
           query_and_test (DeviceID d)
         else print Stdout TInvalidSelection
     end)
    is_Exception
    (fun _ => print Stdout TInvalidInputOrError).

End Menu.

(** ** Reading a trace *)

Definition is_sample_ok (a : action) : bool :=
  match a with APrint Stdout (TSampleOk _ _ _ _ _ _) => true | _ => false end.

Definition is_sample_error (a : action) : bool :=
  match a with APrint Stdout (TSampleError _ _ _ _ _) => true | _ => false end.

(** The per-sample trace lines, one per finished attempt. *)
Definition is_sample (a : action) : bool := is_sample_ok a || is_sample_error a.

(** The [i+1] a per-sample line starts with. *)
Definition sample_index (a : action) : Z :=
  match a with
  | APrint _ (TSampleOk i _ _ _ _ _) => i
  | APrint _ (TSampleError i _ _ _ _) => i
  | _ => 0
  end.

(** A positioning or read call that raised. *)
Definition failed_io (a : action) : bool :=
  match a with
  | ASetFilePointer _ _ _ false => true
  | AReadFile _ _ _ _ None => true
  | _ => false
  end.

(** Every failed device call is directly followed by its
    "Error reading block" line. *)
Fixpoint failures_reported (tr : list action) : bool :=
  match tr with
  | [] => true
  | a :: rest =>
      (if failed_io a
       then match rest with b :: _ => is_sample_error b | [] => false end
       else true)
      && failures_reported rest
  end.

Definition is_summary (a : action) : bool :=
  match a with
  | APrint Stdout (TSuccessRate _ _ _) => true
  | APrint Stdout (TAverageLatency _) => true
  | APrint Stdout (TAverageThroughput _) => true
  | _ => false
  end.

Definition is_open (a : action) : bool :=
  match a with ACreateFile _ _ => true | _ => false end.

Definition is_close (a : action) : bool :=
  match a with ACloseHandle _ => true | _ => false end.

Definition is_draw (a : action) : bool :=
  match a with ARandint _ _ _ => true | _ => false end.

(** An action of the sampling loop: a draw, a device access, a clock
    reading or a per-sample line. *)
Definition is_loop_action (a : action) : bool :=
  match a with
  | ARandint _ _ _ | ASetFilePointer _ _ _ _ | AReadFile _ _ _ _ _ | ATime _ => true
  | _ => is_sample a
  end.

(** A device access of the sampling loop: positioning or reading. *)
Definition is_device_access (a : action) : bool :=
  match a with
  | ASetFilePointer _ _ _ _ => true
  | AReadFile _ _ _ _ _ => true
  | _ => false
  end.

(** The successful samples of a trace: a read that returned data between
    two clock readings, as (bytes returned, second reading - first). *)
Fixpoint successful_samples (tr : list action) : list (Z * Q) :=
  match tr with
  | [] => []
  | ATime start :: rest =>
      match rest with
      | AReadFile _ _ _ _ (Some n) :: ATime stop :: rest' =>
          (n, (stop - start)%Q) :: successful_samples rest'
      | _ => successful_samples rest
      end
  | _ :: rest => successful_samples rest
  end.

Definition Zsum (l : list Z) : Z := fold_right Z.add 0 l.

Definition Qsum (l : list Q) : Q := fold_right Qplus 0%Q l.

(** [1, 2, ..., n] *)
Definition one_to (n : Z) : list Z := map Z.of_nat (seq 1 (Z.to_nat n)).

Definition is_print (a : action) : bool :=
  match a with APrint _ _ => true | _ => false end.

(** What lines 145-146 print. *)
Fixpoint drive_choice_lines (drives : list drive) (idx : Z) : list action :=
  match drives with
  | [] => []
  | d :: rest =>
      APrint Stdout (TDriveEntry (idx + 1) (DeviceID d) (Model d))
      :: drive_choice_lines rest (idx + 1)
  end.


(** 1 <= num_tests <= total_blocks *)
Definition in_range (total_blocks num_tests : Z) : bool :=
  (1 <=? num_tests) && (num_tests <=? total_blocks).

(** The values the summary interpolates. *)
Definition rate_of (t : totals) (num_reads : Z) : Q :=
  (inject_Z (successes t) / inject_Z num_reads * 100)%Q.

Definition avg_latency_of (t : totals) : Q :=
  (total_time t / inject_Z (successes t) * 1000)%Q.

Definition throughput_mb_of (t : totals) : Q :=
  (inject_Z (total_bytes t) / inject_Z (1024 ^ 2) / total_time t)%Q.

(** The accumulators a finished run ended with. *)
Definition completed_totals (r : res exit_path) : totals :=
  match r with Val (ExitCompleted t) => t | _ => zero_totals end.

(** ** Example platforms *)

Definition idle_world (lines : list string) : world :=
  {| opens := 0; ioctls := 0; seeks := 0; reads := 0; draws := 0; clock := 0%Q;
     cursor := fun _ => 0; live := []; next_handle := 1%nat; stdin := lines |}.

(** 8192 as an eight-byte little-endian length. *)
Definition length_8192 : list byte := [x00; x20; x00; x00; x00; x00; x00; x00].

Definition full_block : list byte := repeat x00 4096.

(** A device of exactly 8192 bytes whose first read takes 1 ms and every
    later one 2 ms; positioning takes 5 ms. *)
Definition two_block_device : platform :=
  {| create_file_answer := fun _ => None;
     ioctl_answer := fun _ => inl length_8192;
     seek_answer := fun _ => ((5 # 1000)%Q, None);
     read_answer := fun k =>
       match k with
       | O => ((1 # 1000)%Q, inl full_block)
       | _ => ((2 # 1000)%Q, inl full_block)
       end;
     entropy := fun k => Z.of_nat k |}.

(** The same device with its second and fourth reads failing. *)
Definition flaky_device : platform :=
  {| create_file_answer := fun _ => None;
     ioctl_answer := fun _ => inl length_8192;
     seek_answer := fun _ => ((5 # 1000)%Q, None);
     read_answer := fun k =>
       match k with
       | 1%nat | 3%nat => ((2 # 1000)%Q, inr "CRC error"%string)
       | _ => ((1 # 1000)%Q, inl full_block)
       end;
     entropy := fun k => Z.of_nat k |}.

(** The same device with every read failing. *)
Definition dead_device : platform :=
  {| create_file_answer := fun _ => None;
     ioctl_answer := fun _ => inl length_8192;
     seek_answer := fun _ => ((5 # 1000)%Q, None);
     read_answer := fun _ => ((2 # 1000)%Q, inr "CRC error"%string);
     entropy := fun k => Z.of_nat k |}.

(** The same device answering every read within one tick of the clock,
    so that both readings around a read are equal. *)
Definition instant_device : platform :=
  {| create_file_answer := fun _ => None;
     ioctl_answer := fun _ => inl length_8192;
     seek_answer := fun _ => ((5 # 1000)%Q, None);
     read_answer := fun _ => (0%Q, inl full_block);
     entropy := fun k => Z.of_nat k |}.

(** A device of 256 bytes: less than one 4096-byte block. *)
Definition tiny_device : platform :=
  {| create_file_answer := fun _ => None;
     ioctl_answer := fun _ => inl [x00; x01; x00; x00; x00; x00; x00; x00];
     seek_answer := fun _ => ((5 # 1000)%Q, None);
     read_answer := fun _ => ((1 # 1000)%Q, inl full_block);
     entropy := fun k => Z.of_nat k |}.

(** A device that opens but refuses the length query. *)
Definition mute_device : platform :=
  {| create_file_answer := fun _ => None;
     ioctl_answer := fun _ => inr "Access is denied"%string;
     seek_answer := fun _ => ((5 # 1000)%Q, None);
     read_answer := fun _ => ((1 # 1000)%Q, inl full_block);
     entropy := fun k => Z.of_nat k |}.

Definition drive0 : string := "\\.\PHYSICALDRIVE0".

Definition one_drive : list drive :=
  [{| DeviceID := drive0; Model := "Disk"; SizeGB := 1%Q; InterfaceType := "SCSI" |}].

(** ** Enumeration, menu loop and entry point *)

(** One object of [c.Win32_DiskDrive()], with the attributes the script
    reads; [None] is Python's [None].  WMI hands out [Size] as a string. *)
Record wmi_disk : Type := {
  wmi_DeviceID : string;
  wmi_Model : option string;
  wmi_Size : option string;
  wmi_InterfaceType : option string
}.

(** [x or default]: [None] and the empty string are falsy. *)
Definition or_else (x : option string) (default : string) : string :=
  match x with
  | Some (String c s) => String c s
  | _ => default
  end.

(** [int(disk.Size) if disk.Size else 0] *)
Definition size_bytes_of (size : option string) : res Z :=
  match size with
  | Some (String c s) =>
      match py_int (String c s) with
      | Some n => Val n
      | None => Exc ValueError
      end
  | _ => Val 0
  end.

(** Lines 44-50: the dict built for one disk. *)
Definition describe_disk (disk : wmi_disk) : res drive :=
  match size_bytes_of (wmi_Size disk) with
  | Exc e => Exc e
  | Val size_bytes =>
      Val {| DeviceID := strip (wmi_DeviceID disk);
             Model := strip (or_else (wmi_Model disk) "");
             SizeGB := (inject_Z size_bytes / inject_Z (1024 ^ 3))%Q;
             InterfaceType := or_else (wmi_InterfaceType disk) "Unknown" |}
  end.

(** Lines 41-51, on what [c.Win32_DiskDrive()] enumerates. *)
Fixpoint get_physical_drives (disks : list wmi_disk) : res (list drive) :=
  match disks with
  | [] => Val []
  | disk :: rest =>
      match describe_disk disk with
      | Exc e => Exc e
      | Val d =>
          match get_physical_drives rest with
          | Exc e => Exc e
          | Val drives => Val (d :: drives)
          end
      end
  end.

(** What the menu prints besides the lines of the read-test branch. *)
Inductive menu_text : Type :=
| TNeedWmi
| TNeedPywin32
| TWindowsOnly
| TNoDrives
| TSelectOption
| TOptionList
| TOptionTest
| TOptionExit
| TDriveListing (idx : Z) (DeviceID Model : string) (SizeGB : Q) (InterfaceType : string)
| TExiting
| TInvalidOption.

Inductive menu_action : Type :=
| InBranch (a : action)
| MenuPrint (s : stream) (t : menu_text)
| MenuChoice (line : option string).

(** Lines 134-137. *)
Definition menu_header : list menu_action :=
  [MenuPrint Stdout TSelectOption; MenuPrint Stdout TOptionList;
   MenuPrint Stdout TOptionTest; MenuPrint Stdout TOptionExit].

(** Lines 141-142. *)
Fixpoint list_drives (drives : list drive) (idx : Z) : list menu_action :=
  match drives with
  | [] => []
  | d :: rest =>
      MenuPrint Stdout
        (TDriveListing (idx + 1) (DeviceID d) (Model d) (SizeGB d) (InterfaceType d))
      :: list_drives rest (idx + 1)
  end.

Definition with_stdin (w : world) (lines : list string) : world :=
  {| opens := opens w; ioctls := ioctls w; seeks := seeks w; reads := reads w;
     draws := draws w; clock := clock w; cursor := cursor w; live := live w;
     next_handle := next_handle w; stdin := lines |}.

(** Lines 133-201: the [while True] of the menu.  [fuel] bounds the
    number of passes; every pass reads a line or ends the loop, so one
    more than the lines waiting is enough (see [menu_loop_fuel]). *)
Fixpoint menu_loop (pf : platform) (drives : list drive) (fuel : nat) (w : world) :
    res unit * world * list menu_action :=
  match fuel with
  | O => (Exc EOFError, w, [])
  | S fuel' =>
      match stdin w with
      | [] => (Exc EOFError, w, menu_header ++ [MenuChoice None])
      | choice :: rest =>
          let w1 := with_stdin w rest in
          let asked := menu_header ++ [MenuChoice (Some choice)] in
          if String.eqb choice "1" then
            let '(r, w2, tr) := menu_loop pf drives fuel' w1 in
            (r, w2, asked ++ list_drives drives 0 ++ tr)
          else if String.eqb choice "2" then
            match read_test_branch pf drives w1 with
            | (Val _, w2, branch) =>
                let '(r, w3, tr) := menu_loop pf drives fuel' w2 in
                (r, w3, asked ++ map InBranch branch ++ tr)
            | (Exc e, w2, branch) => (Exc e, w2, asked ++ map InBranch branch)
            end
          else if String.eqb choice "3" then
            (Val tt, w1, asked ++ [MenuPrint Stdout TExiting])
          else
            let '(r, w2, tr) := menu_loop pf drives fuel' w1 in
            (r, w2, asked ++ [MenuPrint Stdout TInvalidOption] ++ tr)
      end
  end.

(** Lines 124-201. *)
Definition interactive_menu (pf : platform) (disks : list wmi_disk) (w : world) :
    res unit * world * list menu_action :=
  match get_physical_drives disks with
  | Exc e => (Exc e, w, [])
  | Val [] => (Val tt, w, [MenuPrint Stdout TNoDrives])
  | Val drives => menu_loop pf drives (S (length (stdin w))) w
  end.

(** How the process ends: [main] returns, [sys.exit(code)], or an
    exception nobody catches. *)
Inductive process_end : Type :=
| Returned
| SysExit (code : Z)
| Traceback (e : exn).

(** Lines 27-33: [None] lets the caller go on. *)
Definition check_windows (sys_platform : string) : option Z * list menu_action :=
  if String.eqb sys_platform "win32" then (None, [])
  else (Some 1, [MenuPrint Stderr TWindowsOnly]).

(** Lines 204-206. *)
Definition main (pf : platform) (sys_platform : string) (disks : list wmi_disk) (w : world) :
    process_end * world * list menu_action :=
  match check_windows sys_platform with
  | (Some code, tr) => (SysExit code, w, tr)
  | (None, tr) =>
      let '(r, w', tr') := interactive_menu pf disks w in
      (match r with Val _ => Returned | Exc e => Traceback e end, w', tr ++ tr')
  end.

(** The script run as a program: the import guards of lines 11-24, then
    [main]. *)
Definition run_script (has_wmi has_pywin32 : bool) (pf : platform) (sys_platform : string)
    (disks : list wmi_disk) (w : world) : process_end * world * list menu_action :=
  if negb has_wmi then (SysExit 1, w, [MenuPrint Stderr TNeedWmi])
  else if negb has_pywin32 then (SysExit 1, w, [MenuPrint Stderr TNeedPywin32])
  else main pf sys_platform disks w.

(** A computation leaves standard input alone. *)
Definition keeps_stdin {A} (m : M A) : Prop :=
  forall w r w' tr, m w = (r, w', tr) -> stdin w' = stdin w.

(** A computation only takes lines off the front of standard input. *)
Definition consumes_stdin {A} (m : M A) : Prop :=
  forall w r w' tr, m w = (r, w', tr) -> exists used, stdin w = used ++ stdin w'.

Definition is_branch_action (a : menu_action) : bool :=
  match a with InBranch _ => true | _ => false end.

Definition is_seek (a : action) : bool :=
  match a with ASetFilePointer _ _ _ _ => true | _ => false end.

Definition is_seek_ok (a : action) : bool :=
  match a with ASetFilePointer _ _ _ true => true | _ => false end.

Definition is_read (a : action) : bool :=
  match a with AReadFile _ _ _ _ _ => true | _ => false end.

(** The run got as far as the sampling loop: the device opened and the
    length query answered eight bytes worth at least one block. *)
Definition setup_succeeds (pf : platform) (block_size : Z) (w : world) (buf : list byte) : Prop :=
  create_file_answer pf (opens w) = None
  /\ ioctl_answer pf (ioctls w) = inl buf
  /\ struct_unpack_Q buf = Val (le_bytes buf)
  /\ 1 <= le_bytes buf / block_size.


(** Two disks as WMI reports them: padded names, a missing size, a
    missing interface type. *)
Definition two_disks : list wmi_disk :=
  [{| wmi_DeviceID := "\\.\PHYSICALDRIVE0 "; wmi_Model := Some " Disk A";
      wmi_Size := Some "8192"; wmi_InterfaceType := None |};
   {| wmi_DeviceID := "\\.\PHYSICALDRIVE1"; wmi_Model := None;
      wmi_Size := None; wmi_InterfaceType := Some "USB" |}]%string.


(** A device whose length query answers four bytes instead of eight. *)
Definition garbled_device : platform :=
  {| create_file_answer := fun _ => None;
     ioctl_answer := fun _ => inl [x00; x20; x00; x00];
     seek_answer := fun _ => ((5 # 1000)%Q, None);
     read_answer := fun _ => ((1 # 1000)%Q, inl full_block);
     entropy := fun k => Z.of_nat k |}.

(** The 8192-byte device with its second positioning call failing. *)
Definition sticky_device : platform :=
  {| create_file_answer := fun _ => None;
     ioctl_answer := fun _ => inl length_8192;
     seek_answer := fun k =>
       match k with
       | 1%nat => ((5 # 1000)%Q, Some "seek failed"%string)
       | _ => ((5 # 1000)%Q, None)
       end;
     read_answer := fun _ => ((1 # 1000)%Q, inl full_block);
     entropy := fun k => Z.of_nat k |}.

(** ** Proof tools *)

Create HintDb stdin.

Ltac setup_holds :=
  unfold setup_succeeds; repeat split; try reflexivity; vm_compute; discriminate.

(** Runs the sampler on a concrete platform and names the pieces of the
    result. *)
Ltac evaluate_completed run E :=
  assert (E : run = (Val (ExitCompleted (completed_totals (fst (fst run)))),
                     snd (fst run), snd run))
    by (vm_compute; reflexivity).

Ltac evaluate_run run E :=
  assert (E : run = (fst (fst run), snd (fst run), snd run))
    by (vm_compute; reflexivity).

Ltac closed_handle_gone :=
  cbn [live remove];
  first [ apply remove_In
        | destruct (Nat.eq_dec _ _); [apply remove_In | congruence] ].

Ltac run_ends_here :=
  let E := fresh "E" in
  cbn; intros E; inversion E; subst; clear E; cbn [live];
  try (destruct (Nat.eq_dec _ _); [|congruence]).

(** ** The code produces runs of the described shape *)

Lemma le_bytes_nonneg (buf : list byte) : 0 <= le_bytes buf.
Proof.
  induction buf as [|b rest IH]; cbn [le_bytes]; [lia|].
  pose proof (N2Z.is_nonneg (Byte.to_N b)). lia.
Qed.

Lemma Qeq_bool_inject_Z_nonzero (z : Z) : z <> 0 -> Qeq_bool (inject_Z z) 0 = false.
Proof.
  intros Hz. destruct (Qeq_bool (inject_Z z) 0) eqn:E; [|reflexivity].
  apply Qeq_bool_eq in E. unfold Qeq in E. simpl in E. lia.
Qed.

Section LoopShape.
Variable pf : platform.
Variable h : handle.
Variables block_size drive_size max_blocks num_reads : Z.
Hypothesis Hblocks : 1 <= max_blocks.
Hypothesis Hsize : drive_size <> 0.

Lemma set_cursor_same c (pos : Z) : set_cursor c h pos h = pos.
Proof. unfold set_cursor. now rewrite Nat.eqb_refl. Qed.

Lemma read_one_block_shape (i : Z) (acc : totals) (w : world) :
  exists acc' w' blk,
    read_one_block pf h block_size drive_size max_blocks num_reads i acc w = (Val acc', w', blk)
    /\ sample_block h block_size drive_size max_blocks num_reads i acc acc' blk
    /\ live w' = live w /\ next_handle w' = next_handle w.
Proof.
  unfold read_one_block, bind at 1, randint.
  destruct (max_blocks - 1 <? 0) eqn:E; [lia|]. clear E.
  set (x := 0 + entropy pf (draws w) mod (max_blocks - 1 - 0 + 1)).
  assert (Hx : 0 <= x < max_blocks).
  { subst x. replace (max_blocks - 1 - 0 + 1) with max_blocks by lia.
    pose proof (Z.mod_pos_bound (entropy pf (draws w)) max_blocks). lia. }
  unfold bind at 1, lift, percent_of, py_truediv.
  rewrite (Qeq_bool_inject_Z_nonzero _ Hsize).
  unfold try_except, bind, SetFilePointer, time_time, ReadFile, print, ret. cbn [seeks reads clock cursor live next_handle].
  destruct (seek_answer pf (seeks w)) as [sd [msg|]]; cbn.
  - do 3 eexists. split; [reflexivity|]. split; [|split; reflexivity].
    apply block_seek_failed; assumption.
  - destruct (read_answer pf (reads w)) as [rd [data|msg]]; cbn.
    + do 3 eexists. split; [reflexivity|]. split; [|split; reflexivity].
      rewrite set_cursor_same.
      apply (block_read_ok h block_size drive_size max_blocks num_reads i acc x sd _ rd); try assumption.
      * lia.
      * ring.
    + do 3 eexists. split; [reflexivity|]. split; [|split; reflexivity].
      rewrite set_cursor_same.
      apply block_read_failed; assumption.
Qed.

Lemma sample_loop_shape (k : nat) : forall (i : Z) (acc : totals) (w : world),
  exists acc' w' blks,
    sample_loop pf h block_size drive_size max_blocks num_reads k i acc w
      = (Val acc', w', concat blks)
    /\ sample_run h block_size drive_size max_blocks num_reads k i acc acc' blks
    /\ live w' = live w /\ next_handle w' = next_handle w.
Proof.
  induction k as [|k IH]; intros i acc w.
  - exists acc, w, []. repeat split. constructor.
  - cbn [sample_loop]. unfold bind.
    destruct (read_one_block_shape i acc w) as (acc1 & w1 & blk & E1 & B1 & L1 & N1).
    rewrite E1.
    destruct (IH (i + 1) acc1 w1) as (acc2 & w2 & blks & E2 & R2 & L2 & N2).
    rewrite E2. exists acc2, w2, (blk :: blks). cbn [concat].
    repeat split; try congruence. econstructor; eassumption.
Qed.
End LoopShape.

Section RunShape.
Variable pf : platform.

Lemma py_truediv_cases (a b : Q) :
  py_truediv a b = Val (a / b)%Q /\ ~ (b == 0)%Q
  \/ py_truediv a b = Exc ZeroDivisionError /\ (b == 0)%Q.
Proof.
  unfold py_truediv. destruct (Qeq_bool b 0) eqn:E.
  - right. split; [reflexivity|]. now apply Qeq_bool_eq.
  - left. split; [reflexivity|]. now apply Qeq_bool_neq.
Qed.

Lemma report_world (num_reads : Z) (t : totals) :
  exists r rep,
    (r = Val tt \/ r = Exc ZeroDivisionError)
    /\ forall w, report num_reads t w = (r, w, rep).
Proof.
  unfold report, bind, lift, print, ret.
  destruct (py_truediv_cases (inject_Z (successes t)) (inject_Z num_reads)) as [[-> _]|[-> _]];
    [|eauto].
  destruct (0 <? successes t); [|eauto].
  destruct (py_truediv_cases (total_time t) (inject_Z (successes t))) as [[-> _]|[-> _]];
    [|eauto].
  match goal with |- context [py_truediv ?a ?b] =>
    destruct (py_truediv_cases a b) as [[-> _]|[-> _]] end; eauto.
Qed.

Lemma positive_quotient (a b : Z) : 0 <= a -> 1 <= a / b -> 0 < b.
Proof.
  intros Ha Hq.
  destruct (Z.lt_trichotomy b 0) as [Hneg|[Hz|Hpos]];
    [|subst; rewrite Z.div_0_r in Hq; lia|assumption].
  pose proof (Z.div_mod a b ltac:(lia)) as Hdm.
  pose proof (Z.mod_neg_bound a b Hneg) as Hm.
  nia.
Qed.

Lemma quick_read_test_run_of (device_id : string) (num_reads block_size : Z) (w : world) :
  forall r w' tr,
    quick_read_test pf device_id num_reads block_size w = (r, w', tr) ->
    run_of pf device_id num_reads block_size w r (live w') tr.
Proof.
  intros r w' tr.
  unfold quick_read_test, bind at 1, try_except at 1, bind at 1, CreateFile.
  destruct (create_file_answer pf (opens w)) as [msg|] eqn:Eopen.
  - run_ends_here. now apply run_open_error.
  - cbn [ret is_Exception app].
    unfold try_finally, read_test_body, try_except, bind at 1, DeviceIoControl.
    cbn [ioctls].
    destruct (ioctl_answer pf (ioctls w)) as [buf|msg] eqn:Eioctl.
    2:{ run_ends_here. now apply run_query_error. }
    unfold bind at 1, lift, struct_unpack_Q, struct_calcsize_Q.
    destruct (Nat.eqb (length buf) 8) eqn:Elen.
    2:{ run_ends_here. apply (run_setup_raised pf _ _ _ _ buf); auto.
        left. split; [|reflexivity]. now apply Nat.eqb_neq. }
    apply Nat.eqb_eq in Elen.
    unfold bind at 1, py_floordiv.
    destruct (block_size =? 0) eqn:Ebs.
    { run_ends_here. apply (run_setup_raised pf _ _ _ _ buf); auto.
      right. repeat split; auto. lia. }
    destruct (le_bytes buf / block_size <? 1) eqn:Esmall.
    { run_ends_here. apply (run_too_small pf _ _ _ _ buf); auto; lia. }
    pose proof (le_bytes_nonneg buf) as Hnn.
    assert (Hq : 1 <= le_bytes buf / block_size) by lia.
    pose proof (positive_quotient _ _ Hnn Hq) as Hbs.
    assert (Hsize : le_bytes buf <> 0).
    { intros Hz. rewrite Hz, Z.div_0_l in Hq; lia. }
    unfold bind at 1.
    match goal with |- context [sample_loop ?p ?h ?b ?d ?m ?n ?k ?i ?a ?w0] =>
      destruct (sample_loop_shape p h b d m n Hq Hsize k i a w0)
        as (t & w2 & blks & Eloop & Hrun & Hlive & Hnext)
    end.
    rewrite Eloop.
    destruct (report_world num_reads t) as (rr & rep & Hrr & Hrep).
    unfold bind at 1. rewrite (Hrep w2).
    destruct Hrr; subst rr; run_ends_here.
    + rewrite Hlive. cbn [live remove]. destruct (Nat.eq_dec _ _); [|congruence].
      rewrite ?app_nil_r, <- ?app_assoc.
      apply (run_sampled pf _ _ _ _ buf t blks (Val tt) w2 rep); auto.
    + rewrite Hlive. cbn [live remove]. destruct (Nat.eq_dec _ _); [|congruence].
      rewrite ?app_nil_r, <- ?app_assoc.
      apply (run_sampled pf _ _ _ _ buf t blks (Exc ZeroDivisionError) w2 rep); auto.
Qed.
End RunShape.

Section BlockFacts.
Variable h : handle.
Variables block_size drive_size max_blocks num_reads : Z.

(** What one iteration adds to the trace and to the counters. *)
Lemma sample_block_counts (i : Z) (acc acc' : totals) (blk : list action) :
  sample_block h block_size drive_size max_blocks num_reads i acc acc' blk ->
  map sample_index (filter is_sample blk) = [i + 1]
  /\ successes acc' = successes acc + Z.of_nat (length (filter is_sample_ok blk))
  /\ failures acc' = failures acc + Z.of_nat (length (filter is_sample_error blk))
  /\ length (filter failed_io blk) = length (filter is_sample_error blk)
  /\ length (filter is_draw blk) = 1%nat
  /\ (forall rest, failures_reported (blk ++ rest) = failures_reported rest).
Proof.
  intros B. destruct B; cbn; repeat split; try lia; reflexivity.
Qed.

Lemma sample_run_counts (k : nat) (i : Z) (acc acc' : totals) (blks : list (list action)) :
  sample_run h block_size drive_size max_blocks num_reads k i acc acc' blks ->
  map sample_index (filter is_sample (concat blks)) = map (fun j => i + Z.of_nat j) (seq 1 k)
  /\ successes acc' = successes acc + Z.of_nat (length (filter is_sample_ok (concat blks)))
  /\ failures acc' = failures acc + Z.of_nat (length (filter is_sample_error (concat blks)))
  /\ length (filter failed_io (concat blks)) = length (filter is_sample_error (concat blks))
  /\ length (filter is_draw (concat blks)) = k
  /\ (forall rest, failures_reported (concat blks ++ rest) = failures_reported rest).
Proof.
  induction 1 as [i acc | k i acc acc1 acc2 blk blks B R IH].
  - cbn. repeat split; lia.
  - destruct (sample_block_counts _ _ _ _ B) as (B1 & B2 & B3 & B4 & B5 & B6).
    destruct IH as (I1 & I2 & I3 & I4 & I5 & I6).
    cbn [concat]. rewrite !filter_app, !length_app, map_app, B1, I1.
    repeat split; try lia.
    + cbn [seq map app]. f_equal; try lia.
      rewrite <- (seq_shift k 1), map_map. apply map_ext. intros j. lia.
    + intros rest. rewrite <- app_assoc, B6. apply I6.
Qed.

End BlockFacts.

Section Completed.
Variable pf : platform.

(** What a summary that did not raise has printed. *)
Lemma report_lines (num_reads : Z) (t : totals) (w w' : world) (rep : list action) :
  report num_reads t w = (Val tt, w', rep) ->
  num_reads <> 0
  /\ (successes t <= 0
      /\ rep = [APrint Stdout (TSuccessRate (successes t) num_reads (rate_of t num_reads))]
      \/ 0 < successes t /\ ~ (total_time t == 0)%Q
         /\ rep = [APrint Stdout (TSuccessRate (successes t) num_reads (rate_of t num_reads));
                   APrint Stdout (TAverageLatency (avg_latency_of t));
                   APrint Stdout (TAverageThroughput (throughput_mb_of t))]).
Proof.
  unfold report, bind, lift, print, ret.
  destruct (py_truediv_cases (inject_Z (successes t)) (inject_Z num_reads)) as [[-> Hn]|[-> _]];
    [|discriminate].
  assert (num_reads <> 0) by (intros ->; apply Hn; reflexivity).
  destruct (0 <? successes t) eqn:Es.
  - destruct (py_truediv_cases (total_time t) (inject_Z (successes t))) as [[-> _]|[-> _]];
      [|discriminate].
    match goal with |- context [py_truediv ?a ?b] =>
      destruct (py_truediv_cases a b) as [[-> Ht]|[-> _]] end; [|discriminate].
    cbn. intros E; inversion E; subst. split; [assumption|].
    right. repeat split; [lia|assumption].
  - cbn. intros E; inversion E; subst. split; [assumption|].
    left. split; [lia|reflexivity].
Qed.

Lemma completed_run_inv (device_id : string) (num_reads block_size : Z) (w : world)
    (t : totals) (lv : list handle) (tr : list action) :
  run_of pf device_id num_reads block_size w (Val (ExitCompleted t)) lv tr ->
  exists buf blks rep w1,
    ioctl_answer pf (ioctls w) = inl buf
    /\ length buf = 8%nat /\ 0 < block_size /\ 1 <= le_bytes buf / block_size
    /\ sample_run (next_handle w) block_size (le_bytes buf) (le_bytes buf / block_size)
         num_reads (Z.to_nat num_reads) 0 zero_totals t blks
    /\ report num_reads t w1 = (Val tt, w1, rep)
    /\ tr = [ACreateFile device_id (Some (next_handle w));
             ADeviceIoControl (next_handle w) true]
            ++ concat blks ++ rep ++ [ACloseHandle (next_handle w)].
Proof.
  intros R. inversion R as [ | | | | buf t0 blks r w1 rep Ho Hi Hl Hb Hq Hrun Hrep Hr ].
  destruct r as [[]|e]; [|discriminate].
  inversion Hr; subst t0.
  exists buf, blks, rep, w1. repeat split; auto.
Qed.

End Completed.

Lemma report_not_sample (num_reads : Z) (t : totals) (w w' : world) (rep : list action) :
  report num_reads t w = (Val tt, w', rep) ->
  filter is_sample rep = [] /\ filter is_sample_ok rep = [] /\ filter is_sample_error rep = []
  /\ filter failed_io rep = [] /\ filter is_draw rep = []
  /\ (forall rest, failures_reported (rep ++ rest) = failures_reported rest).
Proof.
  intros E. apply report_lines in E. destruct E as (_ & [(_ & ->)|(_ & _ & ->)]);
    cbn; repeat split.
Qed.

Lemma report_only_prints (num_reads : Z) (t : totals) (w w' : world) (r : res unit)
    (rep : list action) :
  report num_reads t w = (r, w', rep) -> forallb is_print rep = true.
Proof.
  unfold report, bind, lift, print, ret.
  destruct (py_truediv _ (inject_Z num_reads)); [|intros E; inversion E; reflexivity].
  destruct (0 <? successes t); [|intros E; inversion E; reflexivity].
  destruct (py_truediv (total_time t) _); [|intros E; inversion E; reflexivity].
  destruct (py_truediv _ (total_time t)); intros E; inversion E; reflexivity.
Qed.

Lemma filter_prints (f : action -> bool) (l : list action) :
  (forall s x, f (APrint s x) = false) -> forallb is_print l = true -> filter f l = [].
Proof.
  intros Hf. induction l as [|a l IH]; [reflexivity|].
  cbn [forallb filter]. intros H. apply andb_prop in H. destruct H as [Ha Hl].
  destruct a; try discriminate. rewrite Hf. auto.
Qed.

Lemma report_only_summary (num_reads : Z) (t : totals) (w w' : world) (r : res unit)
    (rep : list action) :
  report num_reads t w = (r, w', rep) -> forallb is_summary rep = true.
Proof.
  unfold report, bind, lift, print, ret.
  destruct (py_truediv _ (inject_Z num_reads)); [|intros E; inversion E; reflexivity].
  destruct (0 <? successes t); [|intros E; inversion E; reflexivity].
  destruct (py_truediv (total_time t) _); [|intros E; inversion E; reflexivity].
  destruct (py_truediv _ (total_time t)); intros E; inversion E; reflexivity.
Qed.

Lemma filter_summary (f : action -> bool) (l : list action) :
  (forall a, is_summary a = true -> f a = false) ->
  forallb is_summary l = true -> filter f l = [].
Proof.
  intros Hf. induction l as [|a l IH]; [reflexivity|].
  cbn [forallb filter]. intros H. apply andb_prop in H. destruct H as [Ha Hl].
  rewrite (Hf a Ha). auto.
Qed.

Lemma summary_not_sample (a : action) : is_summary a = true -> is_sample a = false.
Proof. destruct a as [| | | | | | | |[] []]; cbn; congruence. Qed.

Lemma sample_run_handles (h : handle) (block_size drive_size max_blocks num_reads : Z)
    (k : nat) (i : Z) (acc acc' : totals) (blks : list (list action)) :
  sample_run h block_size drive_size max_blocks num_reads k i acc acc' blks ->
  filter is_open (concat blks) = [] /\ filter is_close (concat blks) = [].
Proof.
  induction 1 as [i acc | k i acc acc1 acc2 blk blks B R IH]; [split; reflexivity|].
  cbn [concat]. rewrite !filter_app. destruct IH as [-> ->].
  destruct B; split; reflexivity.
Qed.

Lemma sample_run_split (h : handle) (block_size drive_size max_blocks num_reads : Z)
    (k : nat) (i : Z) (acc acc' : totals) (blks : list (list action)) (a : action) :
  sample_run h block_size drive_size max_blocks num_reads k i acc acc' blks ->
  In a (concat blks) ->
  exists before after j acc1 acc2 blk,
    concat blks = before ++ blk ++ after
    /\ sample_block h block_size drive_size max_blocks num_reads j acc1 acc2 blk
    /\ In a blk.
Proof.
  induction 1 as [i acc | k i acc acc1 acc2 blk blks B R IH]; [intros []|].
  cbn [concat]. intros Hin. apply in_app_or in Hin. destruct Hin as [Hin|Hin].
  - exists [], (concat blks), i, acc, acc1, blk. auto.
  - destruct (IH Hin) as (before & after & j & a1 & a2 & blk' & Hc & B' & Hin').
    exists (blk ++ before), after, j, a1, a2, blk'. rewrite Hc, <- app_assoc. auto.
Qed.

Lemma summary_not_loop_action (a : action) : is_summary a = true -> is_loop_action a = false.
Proof. destruct a as [| | | | | | | |[] []]; cbn; congruence. Qed.

(** A loop action of a run lies in one of its sample blocks. *)
Lemma run_action_in_block (pf : platform) (device_id : string) (num_reads block_size : Z)
    (w : world) (r : res exit_path) (lv : list handle) (tr : list action) (a : action) :
  run_of pf device_id num_reads block_size w r lv tr ->
  In a tr ->
  is_loop_action a = true ->
  exists buf before after j acc1 acc2 blk,
    ioctl_answer pf (ioctls w) = inl buf /\ length buf = 8%nat
    /\ 0 < block_size /\ 1 <= le_bytes buf / block_size
    /\ tr = before ++ blk ++ after
    /\ sample_block (next_handle w) block_size (le_bytes buf) (le_bytes buf / block_size)
         num_reads j acc1 acc2 blk
    /\ In a blk.
Proof.
  intros R Hin Hloop.
  inversion R as [ msg Eo | msg Eo Ei | buf e Eo Ei He | buf Eo Ei Hl Hb Hsm
                 | buf t blks rr w1 rep Eo Ei Hl Hb Hge Hrun Hrep ]; subst;
    cbn [In app] in Hin;
    repeat match goal with
    | H : _ \/ _ |- _ => destruct H as [H|H]
    | H : False |- _ => destruct H
    | H : _ = a |- _ => subst a; discriminate
    end.
  apply in_app_or in Hin. destruct Hin as [Hin|Hin].
  - destruct (sample_run_split _ _ _ _ _ _ _ _ _ _ a Hrun Hin)
      as (before & after & j & a1 & a2 & blk & Hc & B & Hb').
    exists buf,
      ([ACreateFile device_id (Some (next_handle w)); ADeviceIoControl (next_handle w) true]
       ++ before),
      (after ++ rep ++ [ACloseHandle (next_handle w)]), j, a1, a2, blk.
    repeat split; auto. rewrite Hc, <- !app_assoc. reflexivity.
  - apply in_app_or in Hin. destruct Hin as [Hin|[<-|[]]]; [|discriminate].
    apply report_only_summary in Hrep. rewrite forallb_forall in Hrep.
    apply Hrep, summary_not_loop_action in Hin. congruence.
Qed.

Lemma Zsum_app (l1 l2 : list Z) : Zsum (l1 ++ l2) = Zsum l1 + Zsum l2.
Proof. unfold Zsum. induction l1 as [|z l IH]; cbn [app fold_right]; lia. Qed.

Lemma Qsum_app (l1 l2 : list Q) : (Qsum (l1 ++ l2) == Qsum l1 + Qsum l2)%Q.
Proof.
  unfold Qsum. induction l1 as [|q l IH]; cbn [app fold_right]; [ring|].
  rewrite IH. ring.
Qed.

Section SampleTotals.
Variable h : handle.
Variables block_size drive_size max_blocks num_reads : Z.

Lemma sample_block_totals (i : Z) (acc acc' : totals) (blk : list action) :
  sample_block h block_size drive_size max_blocks num_reads i acc acc' blk ->
  filter is_summary blk = []
  /\ exists s,
       (forall rest, successful_samples (blk ++ rest) = s ++ successful_samples rest)
       /\ successes acc' = successes acc + Z.of_nat (length s)
       /\ total_bytes acc' = total_bytes acc + Zsum (map fst s)
       /\ (total_time acc' == total_time acc + Qsum (map snd s))%Q.
Proof.
  intros B. destruct B; (split; [reflexivity|]).
  - exists []. cbn. repeat split; try lia. ring.
  - exists []. cbn. repeat split; try lia. ring.
  - exists [(n, (t1 - t0)%Q)]. cbn. repeat split; try lia. ring.
Qed.

Lemma sample_run_totals (k : nat) (i : Z) (acc acc' : totals) (blks : list (list action)) :
  sample_run h block_size drive_size max_blocks num_reads k i acc acc' blks ->
  filter is_summary (concat blks) = []
  /\ (forall rest,
        successful_samples (concat blks ++ rest)
        = successful_samples (concat blks) ++ successful_samples rest)
  /\ successes acc' = successes acc + Z.of_nat (length (successful_samples (concat blks)))
  /\ total_bytes acc' = total_bytes acc + Zsum (map fst (successful_samples (concat blks)))
  /\ (total_time acc' == total_time acc + Qsum (map snd (successful_samples (concat blks))))%Q.
Proof.
  induction 1 as [i acc | k i acc acc1 acc2 blk blks B R IH].
  - cbn. repeat split; try lia. ring.
  - destruct (sample_block_totals _ _ _ _ B) as (B0 & s & B1 & B2 & B3 & B4).
    destruct IH as (I0 & I1 & I2 & I3 & I4).
    cbn [concat]. rewrite filter_app, B0, I0.
    assert (Hs : successful_samples (blk ++ concat blks) = s ++ successful_samples (concat blks))
      by apply B1.
    rewrite Hs. repeat split.
    + intros rest. rewrite <- app_assoc, B1, I1. apply app_assoc.
    + rewrite length_app. lia.
    + rewrite map_app, Zsum_app. lia.
    + rewrite map_app, Qsum_app, I4, B4. ring.
Qed.

End SampleTotals.

Lemma range_check_cases (total_blocks n : Z) :
  ((n <? 1) || (total_blocks <? n)) = negb (in_range total_blocks n).
Proof. unfold in_range. destruct (n <? 1) eqn:A, (total_blocks <? n) eqn:B, (1 <=? n) eqn:C, (n <=? total_blocks) eqn:D; try reflexivity; lia. Qed.

Lemma read_count_accepts (total_blocks n : Z) (entry : string) (printed : list action) :
  read_count total_blocks entry = (Some n, printed) ->
  1 <= n <= total_blocks /\ printed = []
  /\ (is_empty (strip entry) = true /\ n = default_tests
      \/ is_empty (strip entry) = false /\ py_int entry = Some n).
Proof.
  unfold read_count.
  destruct (is_empty (strip entry)) eqn:Eb.
  - rewrite range_check_cases. unfold in_range.
    destruct ((1 <=? default_tests) && (default_tests <=? total_blocks)) eqn:Er; cbn;
      intros E; inversion E; subst.
    apply andb_prop in Er. repeat split; auto; lia.
  - destruct (py_int entry) as [m|]; [|discriminate].
    rewrite range_check_cases. unfold in_range.
    destruct ((1 <=? m) && (m <=? total_blocks)) eqn:Er; cbn; intros E; inversion E; subst.
    apply andb_prop in Er. repeat split; auto; lia.
Qed.



Lemma print_drive_choices_trace (drives : list drive) :
  forall idx w, print_drive_choices drives idx w = (Val tt, w, drive_choice_lines drives idx).
Proof.
  induction drives as [|d rest IH]; intros idx w; [reflexivity|].
  cbn [print_drive_choices drive_choice_lines]. unfold bind, print. now rewrite IH.
Qed.

Lemma drive_choice_lines_prints (drives : list drive) :
  forall idx, forallb is_print (drive_choice_lines drives idx) = true.
Proof. induction drives as [|d rest IH]; intros idx; cbn; auto. Qed.

Lemma ask_and_test_live (pf : platform) (dev : string) (total_blocks : Z) (w w' : world)
    (r : res unit) (tr : list action) :
  ask_and_test pf dev total_blocks w = (r, w', tr) ->
  forall x, In x (live w') -> In x (live w).
Proof.
  unfold ask_and_test, bind at 1, prompt_num_tests.
  destruct (prompt_loop total_blocks (stdin w)) as [[[n|e] rest] tr1].
  2:{ intros E; inversion E; subst. auto. }
  unfold bind, ret.
  match goal with |- context [quick_read_test pf dev n 4096 ?w1] =>
    destruct (quick_read_test pf dev n 4096 w1) as [[rr w2] tr2] eqn:Eq;
    apply quick_read_test_run_of in Eq
  end.
  assert (Hlive : forall x, In x (live w2) -> In x (live w)).
  { inversion Eq; subst; cbn [live] in *; auto;
      intros x Hx; apply in_remove in Hx; tauto. }
  destruct rr; cbn; intros E; inversion E; subst; auto.
Qed.

(** One successful iteration of the loop body: the first clock reading
    is taken once positioning has returned, and only the read lies
    between the two readings. *)
Lemma read_one_block_timing (pf : platform) (h : handle)
    (block_size drive_size max_blocks num_reads i : Z) (acc acc' : totals)
    (w w' : world) (blk : list action) :
  read_one_block pf h block_size drive_size max_blocks num_reads i acc w = (Val acc', w', blk) ->
  successes acc' = successes acc + 1 ->
  let seek_took := fst (seek_answer pf (seeks w)) in
  let read_took := fst (read_answer pf (reads w)) in
  let start := (clock w + seek_took)%Q in
  let stop := (start + read_took)%Q in
  exists block_index percent read_len,
    blk = [ARandint 0 (max_blocks - 1) block_index;
           ASetFilePointer h (block_index * block_size) seek_took true;
           ATime start;
           AReadFile h (block_index * block_size) block_size read_took (Some read_len);
           ATime stop;
           APrint Stdout
             (TSampleOk (i + 1) num_reads block_index percent read_len
                ((stop - start) * 1000)%Q)]
    /\ total_time acc' = (total_time acc + (stop - start))%Q
    /\ (stop - start == read_took)%Q.
Proof.
  unfold read_one_block, bind at 1, randint.
  destruct (max_blocks - 1 <? 0); [discriminate|].
  unfold bind at 1, lift. destruct (percent_of _ drive_size) as [pct|e]; [|discriminate].
  unfold try_except, bind, SetFilePointer, time_time, ReadFile, print, ret.
  cbn [seeks reads clock cursor].
  destruct (seek_answer pf (seeks w)) as [sd [msg|]]; cbn.
  - intros E Hs; inversion E; subst; cbn in Hs; lia.
  - destruct (read_answer pf (reads w)) as [rd [data|msg]]; cbn.
    + intros E _; inversion E; subst; clear E.
      do 3 eexists. rewrite set_cursor_same. split; [reflexivity|]. split; [reflexivity|]. ring.
    + intros E Hs; inversion E; subst; cbn in Hs; lia.
Qed.

(** Once the device is open and the length query has answered a length
    of at least one block, the loop runs all its iterations whatever the
    device does: the run prints the per-sample lines 1..N and then either
    finishes or raises [ZeroDivisionError] in the summary. *)
Lemma sampling_runs_to_the_end (pf : platform) (device_id : string)
    (num_reads block_size : Z) (w w' : world) (r : res exit_path) (tr : list action)
    (buf : list byte) :
  create_file_answer pf (opens w) = None ->
  ioctl_answer pf (ioctls w) = inl buf ->
  struct_unpack_Q buf = Val (le_bytes buf) ->
  1 <= le_bytes buf / block_size ->
  quick_read_test pf device_id num_reads block_size w = (r, w', tr) ->
  map sample_index (filter is_sample tr) = one_to num_reads
  /\ ((exists t, r = Val (ExitCompleted t)) \/ r = Exc ZeroDivisionError).
Proof.
  intros Ho Hi Hu Hq E. apply quick_read_test_run_of in E.
  assert (Hl : length buf = 8%nat).
  { unfold struct_unpack_Q, struct_calcsize_Q in Hu.
    destruct (Nat.eqb (length buf) 8) eqn:El; [now apply Nat.eqb_eq|discriminate]. }
  inversion E as [ msg Eo | msg Eo Ei | buf0 e Eo Ei He | buf0 Eo Ei Hl0 Hb0 Hsm
                 | buf0 t blks rr w1 rep Eo Ei Hl0 Hb0 Hge Hrun Hrep ]; subst;
    try congruence.
  - assert (buf0 = buf) by congruence. subst buf0.
    destruct He as [[? _]|(_ & -> & _)]; [contradiction|].
    rewrite Z.div_0_r in Hq. lia.
  - assert (buf0 = buf) by congruence. subst buf0. lia.
  - apply sample_run_counts in Hrun. destruct Hrun as (I1 & _).
    pose proof (filter_summary is_sample rep summary_not_sample
                  (report_only_summary _ _ _ _ _ _ Hrep)) as Hnone.
    destruct (report_world num_reads t) as (r' & rep' & Hr' & Hrep').
    rewrite Hrep' in Hrep. inversion Hrep; subst r' rep'. split.
    + cbn [app filter is_sample is_sample_ok is_sample_error orb].
      rewrite !filter_app, Hnone. cbn. rewrite app_nil_r, I1.
      unfold one_to. apply map_ext. intros j. lia.
    + destruct Hr' as [->| ->]; eauto.
Qed.

(** A run whose successful reads took no measurable time does not
    finish: line 114 divides by [total_time], which is zero, and the
    [ZeroDivisionError] leaves the function (through the [finally], so
    the handle is closed) after the success rate has been printed. *)
Remark zero_elapsed_run_raises :
  fst (fst (quick_read_test instant_device drive0 2 4096 (idle_world [])))
  = Exc ZeroDivisionError
  /\ filter is_summary (snd (quick_read_test instant_device drive0 2 4096 (idle_world [])))
     = [APrint Stdout (TSuccessRate 2 2 (200 # 2))]
  /\ last (snd (quick_read_test instant_device drive0 2 4096 (idle_world []))) (ATime 0)
     = ACloseHandle 1%nat.
Proof. vm_compute. repeat split. Qed.

(** ** The claims *)



(** C2: one call of the sampler makes exactly one CreateFile call, so it
    opens at most one handle.  If the open fails, the run ends on the
    open-error path with the error printed, no CloseHandle, and the set of
    open handles unchanged.  If it succeeds, then whatever the result
    (finished run, failed length query, drive too small, or an exception
    passing through), the trace ends with the CloseHandle of that handle,
    nothing else is opened or closed in between, and the handle is no
    longer open afterwards. *)
Theorem handle_released_on_every_path (pf : platform) (device_id : string)
    (num_reads block_size : Z) (w w' : world) (r : res exit_path) (tr : list action) :
  quick_read_test pf device_id num_reads block_size w = (r, w', tr) ->
  length (filter is_open tr) = 1%nat
  /\ match create_file_answer pf (opens w) with
     | Some msg =>
         r = Val ExitOpenError
         /\ tr = [ACreateFile device_id None; APrint Stderr (TErrorOpening (Win32Error msg))]
         /\ live w' = live w
     | None =>
         (exists body,
            tr = ACreateFile device_id (Some (next_handle w)) :: body
                 ++ [ACloseHandle (next_handle w)]
            /\ filter is_open body = [] /\ filter is_close body = [])
         /\ live w' = remove Nat.eq_dec (next_handle w) (live w)
         /\ ~ In (next_handle w) (live w')
     end.
Proof.
  intros E. apply quick_read_test_run_of in E.
  inversion E as [ msg Ho | msg Ho Hi | buf e Ho Hi He | buf Ho Hi Hl Hb Hq
                 | buf t blks rr w1 rep Ho Hi Hl Hb Hq Hrun Hrep ]; subst; rewrite Ho.
  - cbn. repeat split.
  - split; [reflexivity|]. split; [|split; [reflexivity|apply remove_In]].
    eexists [_; _]. cbn. repeat split.
  - split; [reflexivity|]. split; [|split; [reflexivity|apply remove_In]].
    eexists [_]. cbn. repeat split.
  - split; [reflexivity|]. split; [|split; [reflexivity|apply remove_In]].
    eexists [_; _]. cbn. repeat split.
  - apply sample_run_handles in Hrun. destruct Hrun as [Hno Hnc].
    apply report_only_prints in Hrep.
    pose proof (filter_prints is_open rep (fun _ _ => eq_refl) Hrep) as Ro.
    pose proof (filter_prints is_close rep (fun _ _ => eq_refl) Hrep) as Rc.
    split; [|split; [|split; [reflexivity|apply remove_In]]].
    + cbn [app filter is_open length]. rewrite !filter_app, Hno, Ro. reflexivity.
    + exists (ADeviceIoControl (next_handle w) true :: concat blks ++ rep).
      cbn [app filter is_open is_close]. rewrite !filter_app, Hno, Hnc, Ro, Rc.
      rewrite <- app_assoc. repeat split.
Qed.

Lemma handle_released_on_every_path_witness :
  exists r w' tr,
    quick_read_test mute_device drive0 25 4096 (idle_world []) = (r, w', tr)
    /\ r = Val ExitSetupError
    /\ length (filter is_open tr) = 1%nat
    /\ ~ In 1%nat (live w').
Proof.
  evaluate_run (quick_read_test mute_device drive0 25 4096 (idle_world [])) E.
  eexists _, _, _. split; [exact E|].
  destruct (handle_released_on_every_path mute_device drive0 25 4096 _ _ _ _ E)
    as (Hopen & Hclose).
  cbn [create_file_answer mute_device opens idle_world next_handle] in Hclose.
  destruct Hclose as (_ & _ & Hgone).
  split; [vm_compute; reflexivity|]. split; assumption.
Defined.

(** C3: a finished run with zero successful reads prints the success
    rate, which is 0, and neither an average-latency nor an
    average-throughput line; computing that summary raises nothing. *)
Theorem no_averages_without_successes (pf : platform) (device_id : string)
    (num_reads block_size : Z) (w w' : world) (t : totals) (tr : list action) :
  quick_read_test pf device_id num_reads block_size w = (Val (ExitCompleted t), w', tr) ->
  successes t = 0 ->
  filter is_summary tr = [APrint Stdout (TSuccessRate 0 num_reads (rate_of t num_reads))]
  /\ (rate_of t num_reads == 0)%Q
  /\ (forall w1, report num_reads t w1 = (Val tt, w1, filter is_summary tr)).
Proof.
  intros E Hs. apply quick_read_test_run_of in E. apply completed_run_inv in E.
  destruct E as (buf & blks & rep & w1 & _ & _ & _ & _ & Hrun & Hrep & ->).
  apply sample_run_totals in Hrun. destruct Hrun as (I0 & _).
  destruct (report_world num_reads t) as (r' & rep' & _ & Hrep').
  rewrite Hrep' in Hrep. inversion Hrep; subst r' rep'.
  pose proof (report_lines _ _ _ _ _ (Hrep' w1)) as (HN & [(_ & ->)|(Hpos & _)]); [|lia].
  cbn [app filter is_summary]. rewrite !filter_app, I0. cbn [app filter is_summary].
  rewrite Hs. split; [reflexivity|]. split.
  - unfold rate_of. rewrite Hs. unfold Qeq. cbn. reflexivity.
  - intros w2. rewrite Hrep'. rewrite Hs. reflexivity.
Qed.

Lemma no_averages_without_successes_witness :
  exists t w' tr,
    quick_read_test dead_device drive0 3 4096 (idle_world []) = (Val (ExitCompleted t), w', tr)
    /\ filter is_summary tr = [APrint Stdout (TSuccessRate 0 3 (rate_of t 3))]
    /\ (rate_of t 3 == 0)%Q.
Proof.
  evaluate_completed (quick_read_test dead_device drive0 3 4096 (idle_world [])) E.
  eexists _, _, _. split; [exact E|].
  destruct (no_averages_without_successes dead_device drive0 3 4096 _ _ _ _ E)
    as (Hlines & Hrate & _); [vm_compute; reflexivity|].
  split; assumption.
Defined.

(** C4: in a finished run with successes > 0, the accumulators are the
    sums over the successful samples only (bytes returned, and stop -
    start of the two clock readings around the read); the summary prints
    the latency (sum of elapsed / successes) * 1000, in milliseconds, and
    the throughput (sum of bytes / sum of elapsed) / (1024 * 1024), in
    MiB per second. *)
Theorem averages_over_successful_samples (pf : platform) (device_id : string)
    (num_reads block_size : Z) (w w' : world) (t : totals) (tr : list action) :
  quick_read_test pf device_id num_reads block_size w = (Val (ExitCompleted t), w', tr) ->
  0 < successes t ->
  successes t = Z.of_nat (length (successful_samples tr))
  /\ total_bytes t = Zsum (map fst (successful_samples tr))
  /\ (total_time t == Qsum (map snd (successful_samples tr)))%Q
  /\ filter is_summary tr
     = [APrint Stdout (TSuccessRate (successes t) num_reads (rate_of t num_reads));
        APrint Stdout (TAverageLatency (avg_latency_of t));
        APrint Stdout (TAverageThroughput (throughput_mb_of t))]
  /\ (avg_latency_of t
      == Qsum (map snd (successful_samples tr))
         / inject_Z (Z.of_nat (length (successful_samples tr))) * 1000)%Q
  /\ (throughput_mb_of t
      == inject_Z (Zsum (map fst (successful_samples tr)))
         / Qsum (map snd (successful_samples tr)) / inject_Z (1024 * 1024))%Q.
Proof.
  intros E Hs. apply quick_read_test_run_of in E. apply completed_run_inv in E.
  destruct E as (buf & blks & rep & w1 & _ & _ & _ & _ & Hrun & Hrep & ->).
  apply sample_run_totals in Hrun. destruct Hrun as (I0 & I1 & I2 & I3 & I4).
  cbn [successes total_bytes total_time zero_totals] in I2, I3, I4.
  apply report_lines in Hrep. destruct Hrep as (HN & [(Hle & _)|(_ & Ht & ->)]); [lia|].
  assert (Hsamples : successful_samples
            ([ACreateFile device_id (Some (next_handle w));
              ADeviceIoControl (next_handle w) true]
             ++ concat blks
             ++ [APrint Stdout (TSuccessRate (successes t) num_reads (rate_of t num_reads));
                 APrint Stdout (TAverageLatency (avg_latency_of t));
                 APrint Stdout (TAverageThroughput (throughput_mb_of t))]
             ++ [ACloseHandle (next_handle w)])
          = successful_samples (concat blks)).
  { cbn [app successful_samples]. rewrite I1. cbn [successful_samples]. apply app_nil_r. }
  rewrite Hsamples.
  assert (Htime : (total_time t == Qsum (map snd (successful_samples (concat blks))))%Q).
  { rewrite I4. ring. }
  repeat split.
  - lia.
  - lia.
  - exact Htime.
  - cbn [app filter is_summary]. rewrite !filter_app, I0. reflexivity.
  - unfold avg_latency_of. rewrite Htime.
    replace (successes t) with (Z.of_nat (length (successful_samples (concat blks)))) by lia.
    reflexivity.
  - unfold throughput_mb_of. rewrite <- Htime.
    replace (Zsum (map fst (successful_samples (concat blks)))) with (total_bytes t) by lia.
    change (1024 ^ 2) with (1024 * 1024).
    field. split; [assumption|]. unfold Qeq. cbn. lia.
Qed.

Lemma averages_over_successful_samples_witness :
  exists t w' tr,
    quick_read_test two_block_device drive0 2 4096 (idle_world [])
    = (Val (ExitCompleted t), w', tr)
    /\ (avg_latency_of t == 3 # 2)%Q
    /\ (throughput_mb_of t == (8192 # 1) / (3 # 1000) / (1048576 # 1))%Q.
Proof.
  evaluate_completed (quick_read_test two_block_device drive0 2 4096 (idle_world [])) E.
  eexists _, _, _. split; [exact E|].
  destruct (averages_over_successful_samples two_block_device drive0 2 4096 _ _ _ _ E)
    as (_ & _ & _ & _ & Hlat & Hthr); [vm_compute; reflexivity|].
  split.
  - rewrite Hlat. vm_compute. reflexivity.
  - rewrite Hthr. vm_compute. reflexivity.
Defined.

(** C5: every block index drawn in any run is drawn from
    [0, maxBlocks - 1] and satisfies 0 <= blockIndex < maxBlocks, where
    maxBlocks is the queried length divided by the block size (floor
    division); a finished run has made exactly N draws. *)
Theorem block_index_in_range (pf : platform) (device_id : string) (num_reads block_size : Z)
    (w w' : world) (r : res exit_path) (tr : list action) :
  quick_read_test pf device_id num_reads block_size w = (r, w', tr) ->
  (forall a b x, In (ARandint a b x) tr ->
     exists buf,
       ioctl_answer pf (ioctls w) = inl buf /\ struct_unpack_Q buf = Val (le_bytes buf)
       /\ a = 0 /\ b = le_bytes buf / block_size - 1
       /\ 0 <= x < le_bytes buf / block_size)
  /\ (forall t, r = Val (ExitCompleted t) -> length (filter is_draw tr) = Z.to_nat num_reads).
Proof.
  intros E. apply quick_read_test_run_of in E. split.
  - intros a b x Hin.
    destruct (run_action_in_block _ _ _ _ _ _ _ _ _ E Hin eq_refl)
      as (buf & before & after & j & a1 & a2 & blk & Ei & Hl & Hb & Hq & _ & B & Hin').
    exists buf. split; [assumption|]. split.
    { unfold struct_unpack_Q, struct_calcsize_Q. now rewrite Hl. }
    destruct B; cbn [In] in Hin';
      repeat match goal with
      | H : _ \/ _ |- _ => destruct H as [H|H]
      | H : False |- _ => destruct H
      | H : _ = ARandint _ _ _ |- _ => inversion H; subst; clear H
      end; auto.
  - intros t ->. apply completed_run_inv in E.
    destruct E as (buf & blks & rep & w1 & _ & _ & _ & _ & Hrun & Hrep & ->).
    apply sample_run_counts in Hrun. destruct Hrun as (_ & _ & _ & _ & I5 & _).
    apply report_not_sample in Hrep. destruct Hrep as (_ & _ & _ & _ & R5 & _).
    cbn [app filter is_draw]. rewrite !filter_app, R5, !length_app, I5. cbn. lia.
Qed.

Lemma block_index_in_range_witness :
  exists buf,
    ioctl_answer two_block_device 0 = inl buf /\ struct_unpack_Q buf = Val (le_bytes buf)
    /\ 0 = 0 /\ 1 = le_bytes buf / 4096 - 1
    /\ 0 <= 0 < le_bytes buf / 4096.
Proof.
  evaluate_run (quick_read_test two_block_device drive0 2 4096 (idle_world [])) E.
  destruct (block_index_in_range two_block_device drive0 2 4096 _ _ _ _ E) as (Hdraw & _).
  apply (Hdraw 0 1 0). vm_compute. right. right. left. reflexivity.
Defined.

(** C6: if the length query answers a length whose quotient by the
    block size (floor division) is below 1, the sampler prints the
    drive-too-small error, leaves on that path, and has made no
    positioning or read call; the handle is closed. *)
Theorem too_small_drive_not_read (pf : platform) (device_id : string)
    (num_reads block_size : Z) (w : world) (buf : list byte) :
  create_file_answer pf (opens w) = None ->
  ioctl_answer pf (ioctls w) = inl buf ->
  struct_unpack_Q buf = Val (le_bytes buf) ->
  block_size <> 0 ->
  le_bytes buf / block_size < 1 ->
  exists w',
    quick_read_test pf device_id num_reads block_size w
    = (Val ExitTooSmall, w',
       [ACreateFile device_id (Some (next_handle w));
        ADeviceIoControl (next_handle w) true;
        APrint Stderr TTooSmall;
        ACloseHandle (next_handle w)])
    /\ filter is_device_access (snd (quick_read_test pf device_id num_reads block_size w)) = []
    /\ ~ In (next_handle w) (live w').
Proof.
  intros Ho Hi Hu Hb Hq.
  destruct (quick_read_test pf device_id num_reads block_size w) as [[r w'] tr] eqn:E.
  exists w'. pose proof (quick_read_test_run_of _ _ _ _ _ _ _ _ E) as R.
  assert (Hl : length buf = 8%nat).
  { unfold struct_unpack_Q, struct_calcsize_Q in Hu.
    destruct (Nat.eqb (length buf) 8) eqn:El; [now apply Nat.eqb_eq|discriminate]. }
  inversion R as [ msg Eo | msg Eo Ei | buf0 e Eo Ei He | buf0 Eo Ei Hl0 Hb0 Hsm
                 | buf0 t blks rr w1 rep Eo Ei Hl0 Hb0 Hge Hrun Hrep ]; subst;
    try congruence.
  - assert (buf0 = buf) by congruence. subst buf0. destruct He as [[? _]|(_ & ? & _)]; contradiction.
  - split; [reflexivity|]. split; [reflexivity|].
    apply remove_In.
  - assert (buf0 = buf) by congruence. subst buf0. lia.
Qed.

Lemma too_small_drive_not_read_witness :
  exists w',
    quick_read_test tiny_device drive0 25 4096 (idle_world [])
    = (Val ExitTooSmall, w',
       [ACreateFile drive0 (Some 1%nat); ADeviceIoControl 1%nat true;
        APrint Stderr TTooSmall; ACloseHandle 1%nat])
    /\ filter is_device_access (snd (quick_read_test tiny_device drive0 25 4096 (idle_world [])))
       = []
    /\ ~ In 1%nat (live w').
Proof.
  apply (too_small_drive_not_read tiny_device drive0 25 4096 (idle_world [])
           [x00; x01; x00; x00; x00; x00; x00; x00]).
  - reflexivity.
  - reflexivity.
  - reflexivity.
  - lia.
  - vm_compute. reflexivity.
Defined.

(** C7: in any run, every "Read ... bytes in ... ms" line is preceded,
    in this order and with nothing in between, by the positioning call
    (which has returned), the first clock reading, the read call and the
    second clock reading; the printed time is the difference of the two
    readings, and that difference is the duration of the read call
    alone, whatever the positioning took. *)
Theorem timing_starts_after_positioning (pf : platform) (device_id : string)
    (num_reads block_size : Z) (w w' : world) (r : res exit_path) (tr : list action)
    (i n block_index : Z) (percent : Q) (read_len : Z) (elapsed_ms : Q) :
  quick_read_test pf device_id num_reads block_size w = (r, w', tr) ->
  In (APrint Stdout (TSampleOk i n block_index percent read_len elapsed_ms)) tr ->
  exists before after h offset seek_took start read_took stop,
    tr = before
         ++ [ASetFilePointer h offset seek_took true;
             ATime start;
             AReadFile h offset block_size read_took (Some read_len);
             ATime stop;
             APrint Stdout (TSampleOk i n block_index percent read_len elapsed_ms)]
         ++ after
    /\ elapsed_ms = ((stop - start) * 1000)%Q
    /\ (stop - start == read_took)%Q.
Proof.
  intros E Hin. apply quick_read_test_run_of in E.
  destruct (run_action_in_block _ _ _ _ _ _ _ _ _ E Hin eq_refl)
    as (buf & before & after & j & a1 & a2 & blk & _ & _ & _ & _ & -> & B & Hin').
  destruct B as [x sd msg Hr | x sd t0 rd msg Hr | x sd t0 rd t1 len Hr Hn Hel];
    cbn [In] in Hin';
    repeat match goal with
    | H : _ \/ _ |- _ => destruct H as [H|H]
    | H : False |- _ => destruct H
    | H : _ = APrint _ _ |- _ => inversion H; subst; clear H
    end.
  exists (before ++ [ARandint 0 (le_bytes buf / block_size - 1) block_index]), after,
    (next_handle w), (block_index * block_size), sd, t0, rd, t1.
  rewrite <- app_assoc. repeat split; auto.
Qed.

Lemma timing_starts_after_positioning_witness :
  exists before after h offset seek_took start read_took stop,
    snd (quick_read_test two_block_device drive0 2 4096 (idle_world []))
    = before
      ++ [ASetFilePointer h offset seek_took true;
          ATime start;
          AReadFile h offset 4096 read_took (Some 4096);
          ATime stop;
          APrint Stdout
            (TSampleOk 1 2 0 (percent_value 8192 0) 4096
               ((0 + (5 # 1000) + (1 # 1000) - (0 + (5 # 1000))) * 1000)%Q)]
      ++ after
    /\ ((0 + (5 # 1000) + (1 # 1000) - (0 + (5 # 1000))) * 1000
        = (stop - start) * 1000)%Q
    /\ (stop - start == read_took)%Q.
Proof.
  evaluate_run (quick_read_test two_block_device drive0 2 4096 (idle_world [])) E.
  apply (timing_starts_after_positioning two_block_device drive0 2 4096 _ _ _ _
           1 2 0 (percent_value 8192 0) 4096 _ E).
  vm_compute. do 7 right. left. reflexivity.
Defined.




(** C9: every read the sampler issues is a read of blockSize bytes at
    position blockIndex * blockSize with
    0 <= blockIndex <= maxBlocks - 1, so that
    position + blockSize <= totalBytes: no read reaches past the end of
    the device. *)
Theorem reads_within_device (pf : platform) (device_id : string) (num_reads block_size : Z)
    (w w' : world) (r : res exit_path) (tr : list action)
    (h : handle) (position size : Z) (took : Q) (returned : option Z) :
  quick_read_test pf device_id num_reads block_size w = (r, w', tr) ->
  In (AReadFile h position size took returned) tr ->
  exists buf block_index,
    ioctl_answer pf (ioctls w) = inl buf /\ struct_unpack_Q buf = Val (le_bytes buf)
    /\ h = next_handle w
    /\ size = block_size
    /\ position = block_index * block_size
    /\ 0 <= block_index <= le_bytes buf / block_size - 1
    /\ 0 <= position
    /\ position + block_size <= le_bytes buf.
Proof.
  intros E Hin. apply quick_read_test_run_of in E.
  destruct (run_action_in_block _ _ _ _ _ _ _ _ _ E Hin eq_refl)
    as (buf & before & after & j & a1 & a2 & blk & Ei & Hl & Hb & Hq & _ & B & Hin').
  pose proof (Z.mul_div_le (le_bytes buf) block_size Hb) as Hfloor.
  assert (Hx : forall x, 0 <= x < le_bytes buf / block_size ->
             0 <= x * block_size /\ x * block_size + block_size <= le_bytes buf) by (intros; nia).
  exists buf.
  destruct B as [x sd msg Hr | x sd t0 rd msg Hr | x sd t0 rd t1 n Hr Hn Hel];
    cbn [In] in Hin';
    repeat match goal with
    | H : _ \/ _ |- _ => destruct H as [H|H]
    | H : False |- _ => destruct H
    | H : _ = AReadFile _ _ _ _ _ |- _ => inversion H; subst; clear H
    end;
    exists x; (split; [assumption|]); (split; [unfold struct_unpack_Q, struct_calcsize_Q; now rewrite Hl|]);
    destruct (Hx x Hr); repeat split; auto; lia.
Qed.

Lemma reads_within_device_witness :
  exists buf block_index,
    ioctl_answer two_block_device 0 = inl buf /\ struct_unpack_Q buf = Val (le_bytes buf)
    /\ 1%nat = 1%nat
    /\ 4096 = 4096
    /\ 0 = block_index * 4096
    /\ 0 <= block_index <= le_bytes buf / 4096 - 1
    /\ 0 <= 0
    /\ 0 + 4096 <= le_bytes buf.
Proof.
  evaluate_run (quick_read_test two_block_device drive0 2 4096 (idle_world [])) E.
  apply (reads_within_device two_block_device drive0 2 4096 _ _ _ _
           1%nat 0 4096 (1 # 1000)%Q (Some 4096) E).
  vm_compute. do 5 right. left. reflexivity.
Defined.

(** C10: in the read-test branch, with a valid selection and a
    successful open, the preliminary handle is closed right after the
    length query when the query returns; when the query raises, the
    branch's handler prints its message, the branch returns normally, no
    CloseHandle of that handle appears in the trace, and the handle is
    still open afterwards. *)
Theorem preliminary_handle_closed_only_after_query (pf : platform) (drives : list drive)
    (w : world) (sel : string) (rest : list string) (n : Z) (d : drive) :
  stdin w = sel :: rest ->
  py_int sel = Some n ->
  1 <= n ->
  nth_error drives (Z.to_nat (n - 1)) = Some d ->
  create_file_answer pf (opens w) = None ->
  let h := next_handle w in
  let asked :=
    drive_choice_lines drives 0
    ++ [AInput (TSelectDrive (Z.of_nat (length drives))) (Some sel);
        ACreateFile (DeviceID d) (Some h)] in
  let '(r, w', tr) := read_test_branch pf drives w in
  match ioctl_answer pf (ioctls w) with
  | inl _ =>
      (exists later, tr = asked ++ [ADeviceIoControl h true; ACloseHandle h] ++ later)
      /\ ~ In h (live w')
  | inr _ =>
      tr = asked ++ [ADeviceIoControl h false; APrint Stdout TInvalidInputOrError]
      /\ r = Val tt
      /\ ~ In (ACloseHandle h) tr
      /\ In h (live w')
  end.
Proof.
  intros Hin Hsel Hn Hd Ho h asked.
  assert (Hlen : (n - 1 <? Z.of_nat (length drives)) = true).
  { apply Z.ltb_lt. assert (Z.to_nat (n - 1) < length drives)%nat; [|lia].
    apply nth_error_Some. congruence. }
  unfold read_test_branch, bind at 1. rewrite print_drive_choices_trace.
  unfold bind at 1, input. rewrite Hin.
  unfold try_except. rewrite Hsel.
  replace (0 <=? n - 1) with true by (symmetry; apply Z.leb_le; lia).
  rewrite Hlen. cbn [andb].
  unfold bind at 1, lift, drives_at. rewrite Hd.
  unfold query_and_test, bind at 1, CreateFile. cbn [opens]. rewrite Ho.
  unfold bind at 1, DeviceIoControl. cbn [ioctls].
  destruct (ioctl_answer pf (ioctls w)) as [buf|msg].
  - unfold bind at 1, CloseHandle.
    match goal with |- context [bind ?m ?k ?w3] =>
      destruct (bind m k w3) as [[r3 w4] tr3] eqn:E3 end.
    assert (Hlive : ~ In h (live w4)).
    { revert E3. unfold bind at 1, lift.
      destruct (struct_unpack_Q buf) as [drive_size|e]; [|intros E; inversion E; subst; closed_handle_gone].
      unfold bind at 1, py_floordiv. cbn [Z.eqb].
      unfold bind at 1, print.
      match goal with |- context [ask_and_test pf ?dv ?tb ?w5] =>
        destruct (ask_and_test pf dv tb w5) as [[r5 w6] tr5] eqn:E5 end.
      intros E; inversion E; subst. intros Hx.
      apply (ask_and_test_live _ _ _ _ _ _ _ E5) in Hx.
      revert Hx. closed_handle_gone. }
    destruct r3 as [[]|e]; cbn [is_Exception print app live].
    + split; [|assumption]. exists tr3. subst asked. rewrite <- !app_assoc. reflexivity.
    + split; [|assumption]. exists (tr3 ++ [APrint Stdout TInvalidInputOrError]).
      subst asked. rewrite <- !app_assoc. reflexivity.
  - cbn [is_Exception print app live]. subst asked.
    split; [rewrite <- !app_assoc; reflexivity|]. split; [reflexivity|]. split; [|now left].
    intros Hc. rewrite !in_app_iff in Hc. cbn [In] in Hc.
    destruct Hc as [Hc|[Hc|[Hc|[Hc|[Hc|[]]]]]]; try discriminate.
    pose proof (drive_choice_lines_prints drives 0) as Hp.
    rewrite forallb_forall in Hp. apply Hp in Hc. discriminate.
Qed.

Lemma preliminary_handle_closed_only_after_query_witness :
  In 1%nat (live (snd (fst (read_test_branch mute_device one_drive (idle_world ["1"%string]))))).
Proof.
  pose proof (preliminary_handle_closed_only_after_query mute_device one_drive
                (idle_world ["1"%string]) "1"%string [] 1
                {| DeviceID := drive0; Model := "Disk"; SizeGB := 1%Q; InterfaceType := "SCSI" |}
                eq_refl eq_refl ltac:(lia) eq_refl eq_refl) as H.
  cbv zeta in H. revert H.
  destruct (read_test_branch mute_device one_drive (idle_world ["1"%string])) as [[r w'] tr].
  cbn [ioctl_answer mute_device ioctls idle_world snd fst].
  intros (_ & _ & _ & Hopen). exact Hopen.
Defined.

(** ** Beyond the claims *)

(** ** Standard input through the monad *)

Section KeepsStdin.

Lemma keeps_ret {A} (a : A) : keeps_stdin (ret a).
Proof. intros w r w' tr E. inversion E. reflexivity. Qed.

Lemma keeps_lift {A} (x : res A) : keeps_stdin (lift x).
Proof. intros w r w' tr E. inversion E. reflexivity. Qed.

Lemma keeps_bind {A B} (m : M A) (k : A -> M B) :
  keeps_stdin m -> (forall a, keeps_stdin (k a)) -> keeps_stdin (bind m k).
Proof.
  intros Hm Hk w r w' tr. unfold bind.
  destruct (m w) as [[[a|e] w1] t1] eqn:Em.
  - destruct (k a w1) as [[r2 w2] t2] eqn:Ek. intros E. inversion E. subst.
    rewrite (Hk _ _ _ _ _ Ek). eapply Hm. eassumption.
  - intros E. inversion E. subst. eapply Hm. eassumption.
Qed.

Lemma keeps_try_except {A} (m : M A) (catches : exn -> bool) (handler : exn -> M A) :
  keeps_stdin m -> (forall e, keeps_stdin (handler e)) ->
  keeps_stdin (try_except m catches handler).
Proof.
  intros Hm Hh w r w' tr. unfold try_except.
  destruct (m w) as [[[a|e] w1] t1] eqn:Em.
  - intros E. inversion E. subst. eapply Hm. eassumption.
  - destruct (catches e).
    + destruct (handler e w1) as [[r2 w2] t2] eqn:Eh. intros E. inversion E. subst.
      rewrite (Hh _ _ _ _ _ Eh). eapply Hm. eassumption.
    + intros E. inversion E. subst. eapply Hm. eassumption.
Qed.

Lemma keeps_try_finally {A} (m : M A) (cleanup : M unit) :
  keeps_stdin m -> keeps_stdin cleanup -> keeps_stdin (try_finally m cleanup).
Proof.
  intros Hm Hc w r w' tr. unfold try_finally.
  destruct (m w) as [[r1 w1] t1] eqn:Em.
  destruct (cleanup w1) as [[[u|e] w2] t2] eqn:Ec; intros E; inversion E; subst;
    rewrite (Hc _ _ _ _ Ec); eapply Hm; eassumption.
Qed.

Variable pf : platform.

Lemma keeps_CreateFile dev : keeps_stdin (CreateFile pf dev).
Proof.
  intros w r w' tr. unfold CreateFile.
  destruct (create_file_answer pf (opens w)); intros E; inversion E; reflexivity.
Qed.

Lemma keeps_CloseHandle h : keeps_stdin (CloseHandle h).
Proof. intros w r w' tr E. inversion E. reflexivity. Qed.

Lemma keeps_DeviceIoControl h : keeps_stdin (DeviceIoControl pf h).
Proof.
  intros w r w' tr. unfold DeviceIoControl.
  destruct (ioctl_answer pf (ioctls w)); intros E; inversion E; reflexivity.
Qed.

Lemma keeps_SetFilePointer h off : keeps_stdin (SetFilePointer pf h off).
Proof.
  intros w r w' tr. unfold SetFilePointer.
  destruct (seek_answer pf (seeks w)) as [took [msg|]]; intros E; inversion E; reflexivity.
Qed.

Lemma keeps_ReadFile h size : keeps_stdin (ReadFile pf h size).
Proof.
  intros w r w' tr. unfold ReadFile.
  destruct (read_answer pf (reads w)) as [took [data|msg]]; intros E; inversion E; reflexivity.
Qed.

Lemma keeps_time_time : keeps_stdin time_time.
Proof. intros w r w' tr E. inversion E. reflexivity. Qed.

Lemma keeps_randint a b : keeps_stdin (randint pf a b).
Proof.
  intros w r w' tr. unfold randint. destruct (b <? a); intros E; inversion E; reflexivity.
Qed.

Lemma keeps_print s t : keeps_stdin (print s t).
Proof. intros w r w' tr E. inversion E. reflexivity. Qed.

End KeepsStdin.

#[local] Hint Resolve keeps_ret keeps_lift keeps_CreateFile keeps_CloseHandle
  keeps_DeviceIoControl keeps_SetFilePointer keeps_ReadFile keeps_time_time keeps_randint
  keeps_print : stdin.

Lemma keeps_read_one_block pf h bs ds mb n i acc :
  keeps_stdin (read_one_block pf h bs ds mb n i acc).
Proof. unfold read_one_block. repeat first [ apply keeps_bind; [|intros ?]
               | apply keeps_try_except; [|intros ?]
               | apply keeps_try_finally
               | solve [auto with stdin] ]. Qed.

Lemma keeps_sample_loop pf h bs ds mb n k : forall i acc,
  keeps_stdin (sample_loop pf h bs ds mb n k i acc).
Proof.
  induction k as [|k IH]; intros i acc; cbn [sample_loop]; [auto with stdin|].
  apply keeps_bind; [apply keeps_read_one_block|]. intros acc'. apply IH.
Qed.

Lemma keeps_report n t : keeps_stdin (report n t).
Proof.
  unfold report. repeat first [ apply keeps_bind; [|intros ?]
               | apply keeps_try_except; [|intros ?]
               | apply keeps_try_finally
               | solve [auto with stdin] ].
  destruct (0 <? successes t); repeat first [ apply keeps_bind; [|intros ?]
               | apply keeps_try_except; [|intros ?]
               | apply keeps_try_finally
               | solve [auto with stdin] ].
Qed.

Lemma keeps_quick_read_test pf dev n bs : keeps_stdin (quick_read_test pf dev n bs).
Proof.
  unfold quick_read_test. apply keeps_bind; [repeat first [ apply keeps_bind; [|intros ?]
               | apply keeps_try_except; [|intros ?]
               | apply keeps_try_finally
               | solve [auto with stdin] ]|].
  intros [h|]; [|auto with stdin].
  apply keeps_try_finally; [|auto with stdin].
  unfold read_test_body. apply keeps_try_except; [|intros ?; repeat first [ apply keeps_bind; [|intros ?]
               | apply keeps_try_except; [|intros ?]
               | apply keeps_try_finally
               | solve [auto with stdin] ]].
  repeat first [ apply keeps_bind; [|intros ?]
               | apply keeps_try_except; [|intros ?]
               | apply keeps_try_finally
               | solve [auto with stdin] ].
  match goal with |- context [if ?c then _ else _] => destruct c end.
  - repeat first [ apply keeps_bind; [|intros ?]
               | apply keeps_try_except; [|intros ?]
               | apply keeps_try_finally
               | solve [auto with stdin] ].
  - apply keeps_bind; [apply keeps_sample_loop|]. intros t.
    apply keeps_bind; [apply keeps_report|]. intros ?. auto with stdin.
Qed.

Lemma keeps_consumes {A} (m : M A) : keeps_stdin m -> consumes_stdin m.
Proof. intros H w r w' tr E. exists []. now rewrite (H _ _ _ _ E). Qed.

Lemma consumes_bind {A B} (m : M A) (k : A -> M B) :
  consumes_stdin m -> (forall a, consumes_stdin (k a)) -> consumes_stdin (bind m k).
Proof.
  intros Hm Hk w r w' tr. unfold bind.
  destruct (m w) as [[[a|e] w1] t1] eqn:Em.
  - destruct (k a w1) as [[r2 w2] t2] eqn:Ek. intros E. inversion E. subst.
    destruct (Hm _ _ _ _ Em) as [u1 H1]. destruct (Hk _ _ _ _ _ Ek) as [u2 H2].
    exists (u1 ++ u2). now rewrite H1, H2, app_assoc.
  - intros E. inversion E. subst. eapply Hm. eassumption.
Qed.

Lemma consumes_try_except {A} (m : M A) (catches : exn -> bool) (handler : exn -> M A) :
  consumes_stdin m -> (forall e, consumes_stdin (handler e)) ->
  consumes_stdin (try_except m catches handler).
Proof.
  intros Hm Hh w r w' tr. unfold try_except.
  destruct (m w) as [[[a|e] w1] t1] eqn:Em.
  - intros E. inversion E. subst. eapply Hm. eassumption.
  - destruct (catches e).
    + destruct (handler e w1) as [[r2 w2] t2] eqn:Eh. intros E. inversion E. subst.
      destruct (Hm _ _ _ _ Em) as [u1 H1]. destruct (Hh _ _ _ _ _ Eh) as [u2 H2].
      exists (u1 ++ u2). now rewrite H1, H2, app_assoc.
    + intros E. inversion E. subst. eapply Hm. eassumption.
Qed.

Lemma consumes_input prompt : consumes_stdin (input prompt).
Proof.
  intros w r w' tr. unfold input. destruct (stdin w) as [|line rest] eqn:Es;
    intros E; inversion E; subst; cbn [stdin].
  - exists []. now rewrite Es.
  - now exists [line].
Qed.

Lemma prompt_loop_consumes (total_blocks : Z) (lines : list string) :
  forall r rest tr, prompt_loop total_blocks lines = (r, rest, tr) ->
  exists used, lines = used ++ rest.
Proof.
  induction lines as [|entry lines IH]; intros r rest tr; cbn [prompt_loop].
  - intros E. inversion E. now exists [].
  - destruct (read_count total_blocks entry) as [[n|] printed].
    + intros E. inversion E. now exists [entry].
    + destruct (prompt_loop total_blocks lines) as [[r' rest'] tr'] eqn:El.
      intros E. inversion E. subst. destruct (IH _ _ _ eq_refl) as [used ->].
      now exists (entry :: used).
Qed.

Lemma consumes_prompt_num_tests total_blocks : consumes_stdin (prompt_num_tests total_blocks).
Proof.
  intros w r w' tr. unfold prompt_num_tests.
  destruct (prompt_loop total_blocks (stdin w)) as [[r' rest] tr'] eqn:El.
  intros E. inversion E. subst. cbn [stdin]. eapply prompt_loop_consumes. eassumption.
Qed.

Lemma keeps_print_drive_choices drives : forall idx, keeps_stdin (print_drive_choices drives idx).
Proof.
  induction drives as [|d rest IH]; intros idx; cbn [print_drive_choices]; [auto with stdin|].
  apply keeps_bind; [auto with stdin|]. intros ?. apply IH.
Qed.

Lemma consumes_read_test_branch pf drives : consumes_stdin (read_test_branch pf drives).
Proof.
  unfold read_test_branch.
  apply consumes_bind; [apply keeps_consumes, keeps_print_drive_choices|]. intros _.
  apply consumes_bind; [apply consumes_input|]. intros sel.
  apply consumes_try_except; [|intros e; apply keeps_consumes; auto with stdin].
  destruct (py_int sel) as [n|]; [|apply keeps_consumes; intros w r w' tr E; now inversion E].
  match goal with |- context [if ?c then _ else _] => destruct c end;
    [|apply keeps_consumes; auto with stdin].
  apply consumes_bind; [apply keeps_consumes; auto with stdin|]. intros d.
  unfold query_and_test.
  apply consumes_bind; [apply keeps_consumes; auto with stdin|]. intros h.
  apply consumes_bind; [apply keeps_consumes; auto with stdin|]. intros info.
  apply consumes_bind; [apply keeps_consumes; auto with stdin|]. intros _.
  apply consumes_bind; [apply keeps_consumes; auto with stdin|]. intros size.
  apply consumes_bind; [apply keeps_consumes; auto with stdin|]. intros blocks.
  apply consumes_bind; [apply keeps_consumes; auto with stdin|]. intros _.
  unfold ask_and_test.
  apply consumes_bind; [apply consumes_prompt_num_tests|]. intros n'.
  apply consumes_bind; [apply keeps_consumes, keeps_quick_read_test|]. intros _.
  apply keeps_consumes; auto with stdin.
Qed.

(** ** The menu *)

(** The read-test branch lets one exception out: [EOFError] from the
    selection prompt, which stands before the [try]. *)
Lemma read_test_branch_result (pf : platform) (drives : list drive) (w w' : world)
    (r : res unit) (tr : list action) :
  read_test_branch pf drives w = (r, w', tr) ->
  r = Val tt \/ r = Exc EOFError /\ stdin w = [] /\ stdin w' = [].
Proof.
  unfold read_test_branch, bind at 1. rewrite print_drive_choices_trace.
  unfold bind at 1, input. destruct (stdin w) as [|sel rest] eqn:Es.
  - intros E. inversion E. subst. right. auto.
  - unfold try_except.
    match goal with |- context [match ?m ?w1 with _ => _ end] =>
      destruct (m w1) as [[[[]|e] w2] t2] end; cbn [is_Exception print];
      intros E; inversion E; auto.
Qed.

Lemma menu_loop_fuel (pf : platform) (drives : list drive) (fuel1 : nat) :
  forall fuel2 w,
    (length (stdin w) < fuel1)%nat -> (length (stdin w) < fuel2)%nat ->
    menu_loop pf drives fuel1 w = menu_loop pf drives fuel2 w.
Proof.
  induction fuel1 as [|fuel1 IH]; intros fuel2 w H1 H2; [lia|].
  destruct fuel2 as [|fuel2]; [lia|]. cbn [menu_loop].
  destruct (stdin w) as [|choice rest] eqn:Es; [reflexivity|].
  cbn [length] in H1, H2.
  assert (Hw1 : stdin (with_stdin w rest) = rest) by reflexivity.
  destruct (String.eqb choice "1").
  { rewrite (IH fuel2 (with_stdin w rest)); [reflexivity| |]; rewrite Hw1; lia. }
  destruct (String.eqb choice "2").
  { destruct (read_test_branch pf drives (with_stdin w rest)) as [[[u|e] w2] branch] eqn:Eb;
      [|reflexivity].
    destruct (consumes_read_test_branch pf drives _ _ _ _ Eb) as [used Hu].
    rewrite Hw1 in Hu.
    assert (length (stdin w2) <= length rest)%nat.
    { rewrite Hu, length_app. lia. }
    rewrite (IH fuel2 w2); [reflexivity| |]; lia. }
  destruct (String.eqb choice "3"); [reflexivity|].
  rewrite (IH fuel2 (with_stdin w rest)); [reflexivity| |]; rewrite Hw1; lia.
Qed.



Lemma with_stdin_same (w : world) : with_stdin w (stdin w) = w.
Proof. now destruct w. Qed.



Lemma menu_loop_without_test (pf : platform) (drives : list drive) (fuel : nat) :
  forall w r w' tr,
    Forall (fun line => line <> "2"%string) (stdin w) ->
    menu_loop pf drives fuel w = (r, w', tr) ->
    filter is_branch_action tr = [] /\ w' = with_stdin w (stdin w').
Proof.
  induction fuel as [|fuel IH]; intros w r w' tr Hno; cbn [menu_loop].
  { intros E. inversion E. subst. split; [reflexivity|]. symmetry. apply with_stdin_same. }
  destruct (stdin w) as [|choice rest] eqn:Es.
  { intros E. inversion E. subst. split; [reflexivity|]. symmetry. apply with_stdin_same. }
  inversion Hno as [|? ? Hc Hrest]; subst.
  assert (Hw1 : Forall (fun line => line <> "2"%string) (stdin (with_stdin w rest))) by exact Hrest.
  destruct (String.eqb choice "1").
  { destruct (menu_loop pf drives fuel (with_stdin w rest)) as [[r1 w1] tr1] eqn:El.
    intros E. inversion E. subst. destruct (IH _ _ _ _ Hw1 El) as [Hf Hw].
    split; [|rewrite Hw at 1; reflexivity].
    cbn. rewrite ?filter_app, Hf, app_nil_r. clear. generalize 0.
    induction drives as [|d l IHl]; intros z; cbn; auto. }
  destruct (String.eqb choice "2") eqn:E2.
  { apply String.eqb_eq in E2. contradiction. }
  destruct (String.eqb choice "3").
  { intros E. inversion E. subst. split; reflexivity. }
  destruct (menu_loop pf drives fuel (with_stdin w rest)) as [[r1 w1] tr1] eqn:El.
  intros E. inversion E. subst. destruct (IH _ _ _ _ Hw1 El) as [Hf Hw].
  split; [|rewrite Hw at 1; reflexivity].
  cbn. exact Hf.
Qed.

(** X16: if no line of the input is "2", the menu makes no
    platform call and prints no line of the read test; the only thing
    that changes is how much input is left. *)
Theorem menu_touches_device_only_in_test (pf : platform) (disks : list wmi_disk)
    (w w' : world) (r : res unit) (tr : list menu_action) :
  Forall (fun line => line <> "2"%string) (stdin w) ->
  interactive_menu pf disks w = (r, w', tr) ->
  filter is_branch_action tr = [] /\ w' = with_stdin w (stdin w').
Proof.
  intros Hno. unfold interactive_menu.
  destruct (get_physical_drives disks) as [[|d drives]|e].
  - intros E. inversion E. subst. split; [reflexivity|]. symmetry. apply with_stdin_same.
  - apply menu_loop_without_test. assumption.
  - intros E. inversion E. subst. split; [reflexivity|]. symmetry. apply with_stdin_same.
Qed.

Lemma menu_touches_device_only_in_test_witness :
  filter is_branch_action
    (snd (interactive_menu two_block_device two_disks (idle_world ["1"; "9"; "3"]%string)))
  = [].
Proof.
  evaluate_run (interactive_menu two_block_device two_disks (idle_world ["1"; "9"; "3"]%string)) E.
  refine (proj1 (menu_touches_device_only_in_test _ _ _ _ _ _ _ E)).
  repeat constructor; discriminate.
Defined.





(** X13: once a selection line could be read, the read-test
    branch returns normally whatever happens inside: a bad selection, a
    failing open or query, the end of input at the count prompt, an
    exception leaving the sampler.  It only takes lines off the front of
    standard input. *)
Theorem read_test_branch_catches_everything (pf : platform) (drives : list drive)
    (w : world) (sel : string) (rest : list string) :
  stdin w = sel :: rest ->
  exists w' tr,
    read_test_branch pf drives w = (Val tt, w', tr)
    /\ exists used, stdin w = used ++ stdin w'.
Proof.
  intros Hs.
  destruct (read_test_branch pf drives w) as [[r w'] tr] eqn:E.
  exists w', tr.
  destruct (read_test_branch_result _ _ _ _ _ _ E) as [->|(_ & Hnil & _)]; [|congruence].
  split; [reflexivity|]. eapply consumes_read_test_branch. eassumption.
Qed.

Lemma read_test_branch_catches_everything_witness :
  exists w' tr,
    read_test_branch mute_device one_drive (idle_world ["1"]%string) = (Val tt, w', tr)
    /\ exists used, ["1"]%string = used ++ stdin w'.
Proof.
  exact (read_test_branch_catches_everything mute_device one_drive
           (idle_world ["1"]%string) "1"%string [] eq_refl).
Defined.



(** X10: for a drive of less than one block
    ([total_blocks < 1]) no entry is ever accepted: the prompt asks again
    for every line and ends with [EOFError] once the input is used up. *)
Theorem small_drive_never_accepted (total_blocks : Z) (lines : list string) :
  total_blocks < 1 ->
  exists tr,
    prompt_loop total_blocks lines = (Exc EOFError, [], tr)
    /\ length (filter (fun a => match a with AInput _ _ => true | _ => false end) tr)
       = S (length lines).
Proof.
  intros Hsmall. induction lines as [|entry lines IH]; cbn [prompt_loop].
  - eexists. split; reflexivity.
  - destruct (read_count total_blocks entry) as [[n|] printed] eqn:Ec.
    + apply read_count_accepts in Ec. lia.
    + destruct IH as (tr & -> & Hlen). eexists. split; [reflexivity|].
      cbn [filter length]. rewrite filter_app, length_app, Hlen.
      assert (Hp : filter (fun a => match a with AInput _ _ => true | _ => false end) printed = []).
      { revert Ec. unfold read_count.
        destruct (is_empty (strip entry)); [|destruct (py_int entry)];
          repeat match goal with |- context [if ?c then _ else _] => destruct c end;
          intros E; inversion E; reflexivity. }
      rewrite Hp. reflexivity.
Qed.

Lemma small_drive_never_accepted_witness :
  exists tr,
    prompt_loop 0 ["1"; ""; "25"]%string = (Exc EOFError, [], tr)
    /\ length (filter (fun a => match a with AInput _ _ => true | _ => false end) tr) = 4%nat.
Proof. apply (small_drive_never_accepted 0 ["1"; ""; "25"]%string). lia. Defined.

(** X9: when the count prompt returns a count, the lines it took
    are some rejected entries followed by the accepted one; the accepted
    entry is the first one that passes, the lines after it are left, and
    exactly one message was printed per rejected entry. *)
Theorem first_acceptable_entry_wins (total_blocks : Z) (lines : list string) :
  forall n rest tr,
    prompt_loop total_blocks lines = (Val n, rest, tr) ->
    exists rejected entry,
      lines = rejected ++ entry :: rest
      /\ Forall (fun e => fst (read_count total_blocks e) = None) rejected
      /\ read_count total_blocks entry = (Some n, [])
      /\ length (filter is_print tr) = length rejected.
Proof.
  induction lines as [|entry lines IH]; intros n rest tr; cbn [prompt_loop]; [discriminate|].
  destruct (read_count total_blocks entry) as [[m|] printed] eqn:Ec.
  - intros E. inversion E. subst. exists [], entry.
    destruct (read_count_accepts _ _ _ _ Ec) as (_ & -> & _). repeat split; auto.
  - destruct (prompt_loop total_blocks lines) as [[r rest'] tr'] eqn:El.
    intros E. inversion E. subst.
    destruct (IH _ _ _ eq_refl) as (rejected & entry' & -> & Hrej & Hacc & Hlen).
    exists (entry :: rejected), entry'. repeat split; auto.
    + constructor; [now rewrite Ec|assumption].
    + cbn [filter is_print length]. rewrite filter_app, length_app, Hlen.
      assert (Hp : length (filter is_print printed) = 1%nat).
      { revert Ec. unfold read_count.
        destruct (is_empty (strip entry)); [|destruct (py_int entry)];
          repeat match goal with |- context [if ?c then _ else _] => destruct c end;
          intros E'; inversion E'; reflexivity. }
      rewrite Hp. reflexivity.
Qed.

Lemma first_acceptable_entry_wins_witness :
  exists rejected entry,
    ["abc"; "0"; "7"; "9"]%string = rejected ++ entry :: ["9"%string]
    /\ Forall (fun e => fst (read_count 256 e) = None) rejected
    /\ read_count 256 entry = (Some 7, [])
    /\ length (filter is_print (snd (prompt_loop 256 ["abc"; "0"; "7"; "9"]%string)))
       = length rejected.
Proof.
  apply (first_acceptable_entry_wins 256 ["abc"; "0"; "7"; "9"]%string 7 ["9"%string]).
  vm_compute. reflexivity.
Defined.

Lemma unpack_length (buf : list byte) :
  struct_unpack_Q buf = Val (le_bytes buf) <-> length buf = 8%nat.
Proof.
  unfold struct_unpack_Q, struct_calcsize_Q. destruct (Nat.eqb (length buf) 8) eqn:E.
  - apply Nat.eqb_eq in E. tauto.
  - apply Nat.eqb_neq in E. split; [discriminate|contradiction].
Qed.

(** A run whose setup succeeds is a sampled run. *)
Lemma sampled_run_inv (pf : platform) (device_id : string) (num_reads block_size : Z)
    (w w' : world) (r : res exit_path) (tr : list action) (buf : list byte) :
  setup_succeeds pf block_size w buf ->
  quick_read_test pf device_id num_reads block_size w = (r, w', tr) ->
  exists t blks rr rep,
    sample_run (next_handle w) block_size (le_bytes buf) (le_bytes buf / block_size)
      num_reads (Z.to_nat num_reads) 0 zero_totals t blks
    /\ (forall w1, report num_reads t w1 = (rr, w1, rep))
    /\ r = match rr with Val _ => Val (ExitCompleted t) | Exc e => Exc e end
    /\ tr = [ACreateFile device_id (Some (next_handle w));
             ADeviceIoControl (next_handle w) true]
            ++ concat blks ++ rep ++ [ACloseHandle (next_handle w)].
Proof.
  intros (Ho & Hi & Hu & Hq) E. apply quick_read_test_run_of in E.
  apply unpack_length in Hu.
  inversion E as [ msg Eo | msg Eo Ei | buf0 e Eo Ei He | buf0 Eo Ei Hl0 Hb0 Hsm
                 | buf0 t blks rr w1 rep Eo Ei Hl0 Hb0 Hge Hrun Hrep ]; subst;
    try congruence.
  - assert (buf0 = buf) by congruence. subst buf0.
    destruct He as [[? _]|(_ & -> & _)]; [contradiction|].
    rewrite Z.div_0_r in Hq. lia.
  - assert (buf0 = buf) by congruence. subst buf0. lia.
  - assert (buf0 = buf) by congruence. subst buf0.
    exists t, blks, rr, rep. repeat split; auto.
    destruct (report_world num_reads t) as (r' & rep' & _ & Hrep').
    rewrite Hrep' in Hrep. inversion Hrep. subst. assumption.
Qed.

(** The four ways the summary goes. *)
Lemma report_cases (num_reads : Z) (t : totals) (w : world) :
  num_reads = 0 /\ report num_reads t w = (Exc ZeroDivisionError, w, [])
  \/ num_reads <> 0 /\ successes t <= 0
     /\ report num_reads t w
        = (Val tt, w, [APrint Stdout (TSuccessRate (successes t) num_reads (rate_of t num_reads))])
  \/ num_reads <> 0 /\ 0 < successes t /\ (total_time t == 0)%Q
     /\ report num_reads t w
        = (Exc ZeroDivisionError, w,
           [APrint Stdout (TSuccessRate (successes t) num_reads (rate_of t num_reads))])
  \/ num_reads <> 0 /\ 0 < successes t /\ ~ (total_time t == 0)%Q
     /\ report num_reads t w
        = (Val tt, w,
           [APrint Stdout (TSuccessRate (successes t) num_reads (rate_of t num_reads));
            APrint Stdout (TAverageLatency (avg_latency_of t));
            APrint Stdout (TAverageThroughput (throughput_mb_of t))]).
Proof.
  destruct (Z.eq_dec num_reads 0) as [->|HN]; [left; split; reflexivity|].
  right.
  assert (Hrate : py_truediv (inject_Z (successes t)) (inject_Z num_reads)
                  = Val (inject_Z (successes t) / inject_Z num_reads)%Q).
  { unfold py_truediv. now rewrite (Qeq_bool_inject_Z_nonzero _ HN). }
  destruct (Z.ltb_spec 0 (successes t)) as [Hs|Hs].
  - right.
    assert (Hper : py_truediv (total_time t) (inject_Z (successes t))
                   = Val (total_time t / inject_Z (successes t))%Q).
    { unfold py_truediv. rewrite (Qeq_bool_inject_Z_nonzero (successes t)); [reflexivity|lia]. }
    destruct (py_truediv_cases (inject_Z (total_bytes t) / inject_Z (1024 ^ 2)) (total_time t))
      as [[Hthr Ht]|[Hthr Ht]]; [right|left]; (split; [assumption|]); (split; [assumption|]);
      (split; [assumption|]);
      unfold report, bind, lift, print, ret; rewrite Hrate;
      (replace (0 <? successes t) with true by (symmetry; apply Z.ltb_lt; assumption));
      rewrite Hper, Hthr; reflexivity.
  - left. split; [assumption|]. split; [assumption|].
    unfold report, bind, lift, print, ret. rewrite Hrate.
    replace (0 <? successes t) with false by (symmetry; apply Z.ltb_ge; assumption).
    reflexivity.
Qed.

Lemma sample_run_accesses (h : handle) (block_size drive_size max_blocks num_reads : Z)
    (k : nat) (i : Z) (acc acc' : totals) (blks : list (list action)) :
  sample_run h block_size drive_size max_blocks num_reads k i acc acc' blks ->
  length (filter is_seek (concat blks)) = k
  /\ length (filter is_read (concat blks)) = length (filter is_seek_ok (concat blks)).
Proof.
  induction 1 as [i acc | k i acc acc1 acc2 blk blks B R IH]; [split; reflexivity|].
  cbn [concat]. rewrite !filter_app, !length_app. destruct IH as [-> ->].
  destruct B; cbn; split; reflexivity.
Qed.

Lemma summary_lines_filtered (f : action -> bool) (num_reads : Z) (t : totals) (w w' : world)
    (r : res unit) (rep : list action) :
  (forall a, is_summary a = true -> f a = false) ->
  report num_reads t w = (r, w', rep) -> filter f rep = [].
Proof. intros Hf E. apply filter_summary; [assumption|]. eapply report_only_summary, E. Qed.

(** X1: the only exceptions that leave [quick_read_test] are
    [struct.error], when the length answer is not eight bytes, and
    [ZeroDivisionError], when it is; a [win32file.error] never escapes,
    whatever the device does. *)
Theorem only_setup_errors_escape (pf : platform) (device_id : string)
    (num_reads block_size : Z) (w w' : world) (e : exn) (tr : list action) :
  quick_read_test pf device_id num_reads block_size w = (Exc e, w', tr) ->
  exists buf,
    create_file_answer pf (opens w) = None
    /\ ioctl_answer pf (ioctls w) = inl buf
    /\ (e = StructError /\ length buf <> 8%nat
        \/ e = ZeroDivisionError /\ length buf = 8%nat).
Proof.
  intros E. apply quick_read_test_run_of in E.
  inversion E as [ | | buf e0 Eo Ei He | | buf t blks rr w1 rep Eo Ei Hl Hb Hge Hrun Hrep Hr ];
    subst.
  - exists buf. repeat split; auto. destruct He as [[? ->]|(? & _ & ->)]; auto.
  - exists buf. repeat split; auto. right.
    destruct (report_world num_reads t) as (r' & rep' & Hr' & Hrep').
    rewrite Hrep' in Hrep. inversion Hrep. subst.
    destruct Hr' as [->| ->]; [discriminate|]. inversion Hr. auto.
Qed.

Lemma only_setup_errors_escape_witness :
  exists buf,
    create_file_answer instant_device 0 = None
    /\ ioctl_answer instant_device 0 = inl buf
    /\ (ZeroDivisionError = StructError /\ length buf <> 8%nat
        \/ ZeroDivisionError = ZeroDivisionError /\ length buf = 8%nat).
Proof.
  assert (E : quick_read_test instant_device drive0 2 4096 (idle_world [])
              = (Exc ZeroDivisionError,
                 snd (fst (quick_read_test instant_device drive0 2 4096 (idle_world []))),
                 snd (quick_read_test instant_device drive0 2 4096 (idle_world []))))
    by (vm_compute; reflexivity).
  exact (only_setup_errors_escape instant_device drive0 2 4096 _ _ _ _ E).
Defined.

(** X2: a length answer that is not eight bytes is not
    reported: [struct.error] passes the [except win32file.error] and
    leaves the function with nothing printed; the handle is closed on the
    way. *)
Theorem malformed_length_not_reported (pf : platform) (device_id : string)
    (num_reads block_size : Z) (w : world) (buf : list byte) :
  create_file_answer pf (opens w) = None ->
  ioctl_answer pf (ioctls w) = inl buf ->
  length buf <> 8%nat ->
  exists w',
    quick_read_test pf device_id num_reads block_size w
    = (Exc StructError, w',
       [ACreateFile device_id (Some (next_handle w));
        ADeviceIoControl (next_handle w) true;
        ACloseHandle (next_handle w)])
    /\ ~ In (next_handle w) (live w').
Proof.
  intros Ho Hi Hl.
  destruct (quick_read_test pf device_id num_reads block_size w) as [[r w'] tr] eqn:E.
  exists w'. pose proof (quick_read_test_run_of _ _ _ _ _ _ _ _ E) as R.
  inversion R as [ msg Eo | msg Eo Ei | buf0 e Eo Ei He | buf0 Eo Ei Hl0 Hb0 Hsm
                 | buf0 t blks rr w1 rep Eo Ei Hl0 Hb0 Hge Hrun Hrep ]; subst;
    try congruence; assert (buf0 = buf) by congruence; subst buf0; try contradiction.
  destruct He as [[_ ->]|(? & _)]; [|contradiction].
  split; [reflexivity|]. apply remove_In.
Qed.

Lemma malformed_length_not_reported_witness :
  exists w',
    quick_read_test garbled_device drive0 25 4096 (idle_world [])
    = (Exc StructError, w',
       [ACreateFile drive0 (Some 1%nat); ADeviceIoControl 1%nat true; ACloseHandle 1%nat])
    /\ ~ In 1%nat (live w').
Proof.
  apply (malformed_length_not_reported garbled_device drive0 25 4096 (idle_world [])
           [x00; x20; x00; x00]); [reflexivity|reflexivity|discriminate].
Defined.

(** X3: once setup has succeeded, the run ends in
    [ZeroDivisionError] exactly when the requested count is 0, or when
    some read succeeded and the elapsed times of the successful reads sum
    to zero. *)
Theorem summary_raises_iff (pf : platform) (device_id : string)
    (num_reads block_size : Z) (w w' : world) (r : res exit_path) (tr : list action)
    (buf : list byte) :
  setup_succeeds pf block_size w buf ->
  quick_read_test pf device_id num_reads block_size w = (r, w', tr) ->
  (r = Exc ZeroDivisionError
   <-> num_reads = 0
       \/ successful_samples tr <> []
          /\ (Qsum (map snd (successful_samples tr)) == 0)%Q).
Proof.
  intros Hs E.
  destruct (sampled_run_inv _ _ _ _ _ _ _ _ _ Hs E) as (t & blks & rr & rep & Hrun & Hrep & -> & ->).
  apply sample_run_totals in Hrun. destruct Hrun as (_ & I1 & I2 & _ & I4).
  cbn [successes total_time zero_totals] in I2, I4.
  assert (Htime : (total_time t == Qsum (map snd (successful_samples (concat blks))))%Q)
    by (rewrite I4; ring).
  assert (Hnz : 0 < successes t <-> successful_samples (concat blks) <> []).
  { rewrite I2. destruct (successful_samples (concat blks)); cbn [length]; split;
      intros; try lia; congruence. }
  destruct (report_cases num_reads t w) as [(HN & Hr)|[(HN & Hle & Hr)|[(HN & Hp & Ht & Hr)|(HN & Hp & Ht & Hr)]]];
    rewrite (Hrep w) in Hr; inversion Hr; subst rr rep;
    cbn [app successful_samples]; rewrite I1; cbn [successful_samples]; rewrite app_nil_r.
  - tauto.
  - split; [discriminate|]. intros [?|[Hne _]]; [contradiction|]. apply Hnz in Hne. lia.
  - split; [|reflexivity]. intros _. right. split; [now apply Hnz|]. now rewrite <- Htime.
  - split; [discriminate|]. intros [?|[_ Hz]]; [contradiction|]. rewrite <- Htime in Hz.
    contradiction.
Qed.

Lemma summary_raises_iff_witness :
  fst (fst (quick_read_test instant_device drive0 2 4096 (idle_world [])))
  = Exc ZeroDivisionError.
Proof.
  evaluate_run (quick_read_test instant_device drive0 2 4096 (idle_world [])) E.
  apply (summary_raises_iff instant_device drive0 2 4096 _ _ _ _ length_8192 ltac:(setup_holds) E).
  right. split; vm_compute; [discriminate|reflexivity].
Defined.

Lemma summary_not_access (a : action) :
  is_summary a = true ->
  is_loop_action a = false /\ is_seek a = false /\ is_read a = false
  /\ is_seek_ok a = false /\ is_sample_ok a = false.
Proof. destruct a as [| | | | | | | |[] []]; cbn; intros; try discriminate; auto. Qed.

(** X4: with a count of 0 or less nothing is drawn, positioned
    or read and no per-sample line is printed; a count of 0 then raises
    [ZeroDivisionError] with nothing printed at all, a negative count
    finishes with a success rate of 0 and no averages. *)
Theorem nonpositive_count_reads_nothing (pf : platform) (device_id : string)
    (num_reads block_size : Z) (w w' : world) (r : res exit_path) (tr : list action)
    (buf : list byte) :
  setup_succeeds pf block_size w buf ->
  num_reads <= 0 ->
  quick_read_test pf device_id num_reads block_size w = (r, w', tr) ->
  filter is_loop_action tr = []
  /\ (if num_reads =? 0
      then r = Exc ZeroDivisionError /\ filter is_print tr = []
      else r = Val (ExitCompleted zero_totals)
           /\ filter is_print tr
              = [APrint Stdout (TSuccessRate 0 num_reads (rate_of zero_totals num_reads))]
           /\ (rate_of zero_totals num_reads == 0)%Q).
Proof.
  intros Hs HN E.
  destruct (sampled_run_inv _ _ _ _ _ _ _ _ _ Hs E) as (t & blks & rr & rep & Hrun & Hrep & -> & ->).
  replace (Z.to_nat num_reads) with O in Hrun by lia.
  inversion Hrun; subst. cbn [concat app].
  destruct (report_cases num_reads zero_totals w)
    as [(H0 & Hr)|[(H0 & _ & Hr)|[(_ & Hp & _)|(_ & Hp & _)]]];
    try (cbn in Hp; lia); rewrite (Hrep w) in Hr; inversion Hr; subst rr rep.
  - subst num_reads. cbn. repeat split.
  - replace (num_reads =? 0) with false by (symmetry; now apply Z.eqb_neq).
    cbn. repeat split.
Qed.

Lemma nonpositive_count_reads_nothing_witness :
  filter is_loop_action (snd (quick_read_test two_block_device drive0 (-3) 4096 (idle_world [])))
  = []
  /\ fst (fst (quick_read_test two_block_device drive0 (-3) 4096 (idle_world [])))
     = Val (ExitCompleted zero_totals).
Proof.
  evaluate_run (quick_read_test two_block_device drive0 (-3) 4096 (idle_world [])) E.
  destruct (nonpositive_count_reads_nothing two_block_device drive0 (-3) 4096 _ _ _ _
              length_8192 ltac:(setup_holds) ltac:(lia) E) as (Hnone & Hend).
  cbn [Z.eqb] in Hend. destruct Hend as (Hr & _). split; assumption.
Defined.

(** X5: once setup has succeeded and the count is not 0, the
    success-rate line is printed, with the number of success lines of
    the trace and that number over the count times 100, also in a run
    that then raises in the averages. *)
Theorem success_rate_always_printed (pf : platform) (device_id : string)
    (num_reads block_size : Z) (w w' : world) (r : res exit_path) (tr : list action)
    (buf : list byte) :
  setup_succeeds pf block_size w buf ->
  num_reads <> 0 ->
  quick_read_test pf device_id num_reads block_size w = (r, w', tr) ->
  let ok := Z.of_nat (length (filter is_sample_ok tr)) in
  In (APrint Stdout (TSuccessRate ok num_reads (inject_Z ok / inject_Z num_reads * 100)%Q)) tr.
Proof.
  intros Hs HN E ok.
  destruct (sampled_run_inv _ _ _ _ _ _ _ _ _ Hs E) as (t & blks & rr & rep & Hrun & Hrep & -> & ->).
  apply sample_run_counts in Hrun. destruct Hrun as (_ & I2 & _).
  cbn [successes zero_totals] in I2.
  assert (Hok : ok = successes t).
  { subst ok. cbn [app filter is_sample_ok]. rewrite !filter_app.
    rewrite (summary_lines_filtered is_sample_ok _ _ _ _ _ _
               (fun a H => proj2 (proj2 (proj2 (proj2 (summary_not_access a H))))) (Hrep w)).
    cbn. rewrite app_nil_r. lia. }
  rewrite Hok. apply in_or_app. right. apply in_or_app. right. apply in_or_app. left.
  destruct (report_cases num_reads t w)
    as [(H0 & _)|[(_ & _ & Hr)|[(_ & _ & _ & Hr)|(_ & _ & _ & Hr)]]];
    [contradiction| | |]; rewrite (Hrep w) in Hr; inversion Hr; left; reflexivity.
Qed.

Lemma success_rate_always_printed_witness :
  In (APrint Stdout (TSuccessRate 3 5 (inject_Z 3 / inject_Z 5 * 100)%Q))
     (snd (quick_read_test flaky_device drive0 5 4096 (idle_world []))).
Proof.
  evaluate_run (quick_read_test flaky_device drive0 5 4096 (idle_world [])) E.
  pose proof (success_rate_always_printed flaky_device drive0 5 4096 _ _ _ _
                length_8192 ltac:(setup_holds) ltac:(lia) E) as H.
  cbv zeta in H.
  assert (Hok : Z.of_nat (length (filter is_sample_ok
                  (snd (quick_read_test flaky_device drive0 5 4096 (idle_world []))))) = 3)
    by (vm_compute; reflexivity).
  rewrite Hok in H. exact H.
Defined.

(** X6: a run that reaches the loop makes exactly one
    positioning call per requested sample, and one read call for each
    positioning call that succeeded: no read after a failed positioning,
    no retry. *)
Theorem one_seek_per_sample (pf : platform) (device_id : string)
    (num_reads block_size : Z) (w w' : world) (r : res exit_path) (tr : list action)
    (buf : list byte) :
  setup_succeeds pf block_size w buf ->
  quick_read_test pf device_id num_reads block_size w = (r, w', tr) ->
  length (filter is_seek tr) = Z.to_nat num_reads
  /\ length (filter is_read tr) = length (filter is_seek_ok tr).
Proof.
  intros Hs E.
  destruct (sampled_run_inv _ _ _ _ _ _ _ _ _ Hs E) as (t & blks & rr & rep & Hrun & Hrep & -> & ->).
  apply sample_run_accesses in Hrun. destruct Hrun as (A1 & A2).
  cbn [app filter is_seek is_read is_seek_ok]. rewrite !filter_app, !length_app.
  rewrite (summary_lines_filtered is_seek _ _ _ _ _ _
             (fun a H => proj1 (proj2 (summary_not_access a H))) (Hrep w)).
  rewrite (summary_lines_filtered is_read _ _ _ _ _ _
             (fun a H => proj1 (proj2 (proj2 (summary_not_access a H)))) (Hrep w)).
  rewrite (summary_lines_filtered is_seek_ok _ _ _ _ _ _
             (fun a H => proj1 (proj2 (proj2 (proj2 (summary_not_access a H))))) (Hrep w)).
  cbn. lia.
Qed.

Lemma one_seek_per_sample_witness :
  length (filter is_seek (snd (quick_read_test sticky_device drive0 3 4096 (idle_world []))))
  = 3%nat
  /\ length (filter is_read (snd (quick_read_test sticky_device drive0 3 4096 (idle_world []))))
     = length (filter is_seek_ok
                 (snd (quick_read_test sticky_device drive0 3 4096 (idle_world [])))).
Proof.
  evaluate_run (quick_read_test sticky_device drive0 3 4096 (idle_world [])) E.
  exact (one_seek_per_sample sticky_device drive0 3 4096 _ _ _ _
           length_8192 ltac:(setup_holds) E).
Defined.

(** X8: when the handle the platform hands out is not already
    open, [quick_read_test] leaves the set of open handles exactly as it
    found it, on every path. *)
Theorem other_handles_untouched (pf : platform) (device_id : string)
    (num_reads block_size : Z) (w w' : world) (r : res exit_path) (tr : list action) :
  ~ In (next_handle w) (live w) ->
  quick_read_test pf device_id num_reads block_size w = (r, w', tr) ->
  live w' = live w.
Proof.
  intros Hfresh E. apply quick_read_test_run_of in E.
  inversion E; subst; try reflexivity; now apply notin_remove.
Qed.

Lemma other_handles_untouched_witness :
  live (snd (fst (quick_read_test two_block_device drive0 2 4096 (idle_world [])))) = [].
Proof.
  evaluate_run (quick_read_test two_block_device drive0 2 4096 (idle_world [])) E.
  refine (other_handles_untouched two_block_device drive0 2 4096 _ _ _ _ _ E).
  intros [].
Defined.

Lemma le_bytes_bound (buf : list byte) : le_bytes buf < 256 ^ Z.of_nat (length buf).
Proof.
  induction buf as [|b rest IH]; cbn [le_bytes length]; [reflexivity|].
  rewrite Nat2Z.inj_succ, Z.pow_succ_r by lia.
  pose proof (Byte.to_N_bounded b). lia.
Qed.

(** X7: every offset passed to [SetFilePointer], in a call that
    succeeds or fails, is a non-negative multiple of the block size, and
    the block behind it ends below 2^64. *)
Theorem unpacked_length_is_uint64 (buf : list byte) :
  match struct_unpack_Q buf with
  | Val v => length buf = 8%nat /\ v = le_bytes buf /\ 0 <= v < 2 ^ 64
  | Exc e => e = StructError /\ length buf <> 8%nat
  end.
Proof.
  unfold struct_unpack_Q, struct_calcsize_Q. destruct (Nat.eqb (length buf) 8) eqn:E.
  - apply Nat.eqb_eq in E. split; [assumption|]. split; [reflexivity|].
    pose proof (le_bytes_nonneg buf). pose proof (le_bytes_bound buf) as Hb.
    rewrite E in Hb. change (256 ^ Z.of_nat 8) with (2 ^ 64) in Hb. lia.
  - apply Nat.eqb_neq in E. auto.
Qed.

(** *** strip *)






Lemma rstrip_rstrip (s : string) : rstrip (rstrip s) = rstrip s.
Proof.
  induction s as [|c s IH]; [reflexivity|]. cbn [rstrip].
  destruct (rstrip s) as [|k kept] eqn:E.
  - destruct (is_space c) eqn:Ec; [reflexivity|]. cbn [rstrip]. now rewrite Ec.
  - cbn [rstrip]. cbn [rstrip] in IH. rewrite IH. reflexivity.
Qed.

Lemma lstrip_head (s : string) :
  lstrip s = EmptyString \/ exists c r, lstrip s = String c r /\ is_space c = false.
Proof.
  induction s as [|c s IH]; cbn [lstrip]; [auto|].
  destruct (is_space c) eqn:E; [assumption|]. right. eauto.
Qed.

Lemma rstrip_keeps_head (c : ascii) (r : string) :
  is_space c = false -> exists r', rstrip (String c r) = String c r'.
Proof.
  intros H. cbn [rstrip]. destruct (rstrip r); [rewrite H|]; eauto.
Qed.

Lemma strip_fixed (s : string) :
  lstrip (strip s) = strip s /\ rstrip (strip s) = strip s.
Proof.
  unfold strip. split; [|apply rstrip_rstrip].
  destruct (lstrip_head s) as [->|(c & r & -> & Hc)]; [reflexivity|].
  destruct (rstrip_keeps_head c r Hc) as [r' ->]. cbn [lstrip]. now rewrite Hc.
Qed.

Lemma strip_strip (s : string) : strip (strip s) = strip s.
Proof.
  destruct (strip_fixed s) as [Hl Hr]. unfold strip at 1. now rewrite Hl, Hr.
Qed.

(** The result of [strip] cannot be stripped further, and does not
    start with whitespace. *)
Lemma strip_is_final (s : string) :
  lstrip (strip s) = strip s /\ rstrip (strip s) = strip s /\ strip (strip s) = strip s
  /\ match strip s with
     | EmptyString => True
     | String c _ => is_space c = false
     end.
Proof.
  destruct (strip_fixed s) as [Hl Hr]. repeat split; auto using strip_strip.
  destruct (strip s) as [|c r] eqn:E; [trivial|].
  cbn [lstrip] in Hl. destruct (is_space c) eqn:Ec; [|reflexivity].
  exfalso. clear -Hl.
  assert (Hlen : forall x, (String.length (lstrip x) <= String.length x)%nat).
  { induction x as [|a x IH]; cbn [lstrip]; [lia|].
    destruct (is_space a); cbn [String.length]; lia. }
  pose proof (Hlen r) as H. rewrite Hl in H. cbn [String.length] in H. lia.
Qed.



(** X7: every offset passed to [SetFilePointer], in a call that
    succeeds or fails, is a non-negative multiple of the block size, and
    the block behind it ends below 2^64. *)
Theorem offsets_aligned_and_64_bit (pf : platform) (device_id : string)
    (num_reads block_size : Z) (w w' : world) (r : res exit_path) (tr : list action)
    (h : handle) (offset : Z) (took : Q) (ok : bool) :
  quick_read_test pf device_id num_reads block_size w = (r, w', tr) ->
  In (ASetFilePointer h offset took ok) tr ->
  0 < block_size
  /\ offset mod block_size = 0
  /\ 0 <= offset
  /\ offset + block_size < 2 ^ 64.
Proof.
  intros E Hin. apply quick_read_test_run_of in E.
  destruct (run_action_in_block _ _ _ _ _ _ _ _ _ E Hin eq_refl)
    as (buf & before & after & j & a1 & a2 & blk & Ei & Hl & Hb & Hq & _ & B & Hin').
  pose proof (Z.mul_div_le (le_bytes buf) block_size Hb) as Hfloor.
  pose proof (le_bytes_bound buf) as Hbound. rewrite Hl in Hbound.
  change (256 ^ Z.of_nat 8) with (2 ^ 64) in Hbound.
  destruct B as [x sd msg Hr | x sd t0 rd msg Hr | x sd t0 rd t1 n Hr Hn Hel];
    cbn [In] in Hin';
    repeat match goal with
    | H : _ \/ _ |- _ => destruct H as [H|H]
    | H : False |- _ => destruct H
    | H : _ = ASetFilePointer _ _ _ _ |- _ => inversion H; subst; clear H
    end;
    (split; [assumption|]); (split; [apply Z.mod_mul; lia|]); split; nia.
Qed.

Lemma offsets_aligned_and_64_bit_witness :
  0 < 4096 /\ 4096 mod 4096 = 0 /\ 0 <= 4096 /\ 4096 + 4096 < 2 ^ 64.
Proof.
  evaluate_run (quick_read_test two_block_device drive0 2 4096 (idle_world [])) E.
  apply (offsets_aligned_and_64_bit two_block_device drive0 2 4096 _ _ _ _
           1%nat 4096 (5 # 1000)%Q true E).
  vm_compute. do 9 right. left. reflexivity.
Defined.

Lemma describe_disk_fields (disk : wmi_disk) (d : drive) :
  describe_disk disk = Val d ->
  DeviceID d = strip (wmi_DeviceID disk)
  /\ strip (DeviceID d) = DeviceID d
  /\ strip (Model d) = Model d
  /\ InterfaceType d <> EmptyString
  /\ (wmi_Size disk = None \/ wmi_Size disk = Some EmptyString -> (SizeGB d == 0)%Q).
Proof.
  unfold describe_disk. destruct (size_bytes_of (wmi_Size disk)) as [n|e] eqn:Es; [|discriminate].
  intros E. inversion E. subst. cbn [DeviceID Model InterfaceType SizeGB].
  repeat split; auto using strip_strip.
  - unfold or_else. destruct (wmi_InterfaceType disk) as [[|c s]|]; discriminate.
  - intros [H|H]; rewrite H in Es; inversion Es; reflexivity.
Qed.

(** X17: when the enumeration succeeds it returns one entry per
    disk, in order; each DeviceID is the disk's, stripped; DeviceID and
    Model have no whitespace left around them; InterfaceType is never
    empty; a disk without a size has SizeGB 0. *)
Theorem drives_are_cleaned_up (disks : list wmi_disk) (drives : list drive) :
  get_physical_drives disks = Val drives ->
  Forall2 (fun disk d =>
             DeviceID d = strip (wmi_DeviceID disk)
             /\ strip (DeviceID d) = DeviceID d
             /\ strip (Model d) = Model d
             /\ InterfaceType d <> EmptyString
             /\ (wmi_Size disk = None \/ wmi_Size disk = Some EmptyString ->
                 (SizeGB d == 0)%Q))
          disks drives.
Proof.
  revert drives. induction disks as [|disk rest IH]; intros drives; cbn [get_physical_drives].
  - intros E. inversion E. constructor.
  - destruct (describe_disk disk) as [d|e] eqn:Ed; [|discriminate].
    destruct (get_physical_drives rest) as [ds|e]; [|discriminate].
    intros E. inversion E. subst. constructor; [|auto].
    now apply describe_disk_fields.
Qed.

Lemma drives_are_cleaned_up_witness :
  exists drives,
    get_physical_drives two_disks = Val drives
    /\ Forall2 (fun disk d =>
                  DeviceID d = strip (wmi_DeviceID disk)
                  /\ strip (DeviceID d) = DeviceID d
                  /\ strip (Model d) = Model d
                  /\ InterfaceType d <> EmptyString
                  /\ (wmi_Size disk = None \/ wmi_Size disk = Some EmptyString ->
                      (SizeGB d == 0)%Q))
               two_disks drives.
Proof.
  eexists. split; [reflexivity|].
  apply (drives_are_cleaned_up two_disks). reflexivity.
Defined.



(** X19: the script ends by [sys.exit] exactly when [wmi] or
    [pywin32] cannot be imported or the platform is not win32; the exit
    code is then 1, one line was written to standard error, and nothing
    else was done. *)
Theorem startup_guards (has_wmi has_pywin32 : bool) (pf : platform) (sys_platform : string)
    (disks : list wmi_disk) (w w' : world) (ending : process_end) (tr : list menu_action) :
  run_script has_wmi has_pywin32 pf sys_platform disks w = (ending, w', tr) ->
  ((exists code, ending = SysExit code)
   <-> has_wmi && has_pywin32 && String.eqb sys_platform "win32" = false)
  /\ (forall code, ending = SysExit code ->
        code = 1 /\ w' = w /\ exists t, tr = [MenuPrint Stderr t]).
Proof.
  unfold run_script, main, check_windows.
  destruct has_wmi; cbn [negb andb].
  2:{ intros E. inversion E. subst. split; [split; eauto|].
      intros code H. inversion H. eauto. }
  destruct has_pywin32; cbn [negb andb].
  2:{ intros E. inversion E. subst. split; [split; eauto|].
      intros code H. inversion H. eauto. }
  destruct (String.eqb sys_platform "win32").
  - destruct (interactive_menu pf disks w) as [[[u|e] w1] tr1]; intros E; inversion E; subst;
      (split; [split; [intros [code H]; discriminate|discriminate]|intros code H; discriminate]).
  - intros E. inversion E. subst. split; [split; eauto|].
    intros code H. inversion H. eauto.
Qed.

Lemma startup_guards_witness :
  exists code,
    fst (fst (run_script true true two_block_device "linux" two_disks (idle_world [])))
    = SysExit code.
Proof.
  evaluate_run (run_script true true two_block_device "linux" two_disks (idle_world [])) E.
  apply (proj2 (proj1 (startup_guards _ _ _ _ _ _ _ _ _ E))). reflexivity.
Defined.

